(** * YouTube Shorts generator: script planner, clip selection, captions
      and the generation pipeline

    A shallow embedding of
      - [app/api/generate-script/route.ts]  (module [Route]),
      - [components/VideoGenerator.tsx]     (module [VideoGenerator]),
      - [types/index.ts]                    (the records below),
    together with models of the two library functions whose sources are
    not part of the tree ([selectClipsForDuration], [generateSubtitles]).

    Conventions.
      - A JavaScript [number] that the sources compute with is a rational
        ([Q]); arithmetic is exact and numeric results are compared with
        [==].  The duration that the synthesizer reports is only tested
        and passed on, and may be any double: a rational, [NaN] or an
        infinity ([JS.double]).
      - A JavaScript string is a [string] whose characters are the code
        units U+0000..U+00FF. *)

From Stdlib Require Import String Ascii List Bool Arith ZArith QArith Qround Lia Lqa.
Import ListNotations.

Set Warnings "-register-all".

Open Scope string_scope.

(** ** JavaScript built-ins used by the sources *)
Module JS.

(** A [number]. *)
Abbreviation number := Q.

(** Code unit of a character. *)
Definition code (c : ascii) : nat := nat_of_ascii c.

(** [/\s/] restricted to U+0000..U+00FF: TAB, LF, VT, FF, CR, SPACE and
    NO-BREAK SPACE. *)
Definition isSpace (c : ascii) : bool :=
  let n := code c in
  (((9 <=? n) && (n <=? 13)) || (n =? 32) || (n =? 160))%nat.

(** Upper-case letters of U+0000..U+00FF: A-Z and the Latin-1 capitals
    U+00C0..U+00DE without the multiplication sign U+00D7.  Each has its
    lower-case partner 32 code units above. *)
Definition isUpper (c : ascii) : bool :=
  let n := code c in
  (((65 <=? n) && (n <=? 90))
   || ((192 <=? n) && (n <=? 222) && negb (n =? 215)))%nat.

Definition lowerChar (c : ascii) : ascii :=
  if isUpper c then ascii_of_nat (code c + 32)%nat else c.

(** [String.prototype.toLowerCase]. *)
Fixpoint toLowerCase (s : string) : string :=
  match s with
  | EmptyString => EmptyString
  | String c s' => String (lowerChar c) (toLowerCase s')
  end.

(** [s.split(/\s+/)]: the pieces of [s] between maximal runs of white
    space.  The result is never empty; a leading or trailing run leaves
    an empty piece at that end. *)
Fixpoint split_ws (s : string) : list string :=
  match s with
  | EmptyString => [EmptyString]
  | String c s' =>
      if isSpace c then
        match s' with
        | String c' _ =>
            if isSpace c' then split_ws s' else EmptyString :: split_ws s'
        | EmptyString => EmptyString :: split_ws s'
        end
      else
        match split_ws s' with
        | w :: ws => String c w :: ws
        | [] => [String c EmptyString]
        end
  end.

(** [arr.includes(w)] on an array of strings. *)
Definition includes (arr : list string) (w : string) : bool :=
  existsb (String.eqb w) arr.

(** [arr.slice(0, n)]. *)
Definition slice0 {A} (n : nat) (arr : list A) : list A := firstn n arr.

(** [Math.ceil] and [Math.floor]. *)
Definition ceil (x : number) : Z := Qceiling x.
Definition floor (x : number) : Z := Qfloor x.

(** Truthiness of a number and of a string. *)
Definition truthyNum (x : number) : bool := negb (Qeq_bool x 0).
Definition truthyStr (s : string) : bool := negb (String.eqb s "").

(** A [number] that is received from outside and not computed with: a
    finite value, [NaN] or an infinity. *)
Inductive double :=
| Finite (q : Q)
| NaN
| PosInfinity
| NegInfinity.

(** Truthiness of such a number: [0] and [NaN] are falsy. *)
Definition truthyDouble (x : double) : bool :=
  match x with
  | Finite q => truthyNum q
  | NaN => false
  | PosInfinity | NegInfinity => true
  end.

(** [arr.join(' ')]. *)
Fixpoint join (sep : string) (l : list string) : string :=
  match l with
  | [] => ""
  | [x] => x
  | x :: rest => x ++ sep ++ join sep rest
  end.

(** A JavaScript value, as far as [JSON.parse] can produce one, and
    [undefined]. *)
Inductive value :=
| VUndefined
| VNull
| VBool (b : bool)
| VNum (n : number)
| VStr (s : string)
| VArr (items : list value)
| VObj (fields : list (string * value)).

(** What a [throw] carries: an [Error] object with its message, or any
    other value. *)
Inductive exn :=
| ErrorObj (message : string)
| NonError.

(** The result of evaluating an expression that may throw, or of awaiting a
    promise that may reject. *)
Inductive outcome (A : Type) :=
| Returned (a : A)
| Thrown (e : exn).
Arguments Returned {A} a.
Arguments Thrown {A} e.

(** Truthiness, as [||] and [!] test it. *)
Definition truthy (v : value) : bool :=
  match v with
  | VUndefined | VNull => false
  | VBool b => b
  | VNum n => truthyNum n
  | VStr s => truthyStr s
  | VArr _ | VObj _ => true
  end.

Fixpoint lookup (k : string) (fields : list (string * value)) : value :=
  match fields with
  | [] => VUndefined
  | (k', v) :: rest => if String.eqb k k' then v else lookup k rest
  end.

(** [v.k] and [v[0]] (with [k = "0"]): reading a property of [undefined] or
    [null] throws a [TypeError]; a missing property is [undefined].  Only
    own data properties and the first element of an array or string are
    modelled, which covers the names the handler reads. *)
Definition getProp (v : value) (k : string) : outcome value :=
  match v with
  | VUndefined | VNull =>
      Thrown (ErrorObj "Cannot read properties of undefined")
  | VObj fields => Returned (lookup k fields)
  | VArr items =>
      if String.eqb k "0" then Returned (nth 0 items VUndefined)
      else Returned VUndefined
  | VStr s =>
      if String.eqb k "0" then
        match s with
        | EmptyString => Returned VUndefined
        | String c _ => Returned (VStr (String c EmptyString))
        end
      else Returned VUndefined
  | VBool _ | VNum _ => Returned VUndefined
  end.

(** [Array.from(new Set(arr))]: duplicates dropped, first occurrences kept
    in order. *)
Fixpoint uniqueFrom (seen : list string) (arr : list string) : list string :=
  match arr with
  | [] => []
  | x :: rest =>
      if includes seen x then uniqueFrom seen rest
      else x :: uniqueFrom (x :: seen) rest
  end.

Definition unique (arr : list string) : list string := uniqueFrom [] arr.

End JS.

(** ** [types/index.ts] *)

Record ScriptSegment := mkScriptSegment {
  seg_text : string;
  seg_duration : JS.number;
  seg_keywords : list string
}.

Record VideoClip := mkVideoClip {
  clip_url : string;
  clip_duration : JS.number;
  clip_startTime : option JS.number
}.

Record SubtitleSegment := mkSubtitleSegment {
  sub_startTime : JS.number;
  sub_endTime : JS.number;
  sub_text : string
}.

(** [VideoSettings.duration : 15 | 30 | 60]. *)
Inductive Duration := D15 | D30 | D60.

Definition seconds (d : Duration) : JS.number :=
  match d with
  | D15 => 15
  | D30 => 30
  | D60 => 60
  end.

Inductive Resolution := R1080x1920 | R720x1280.

Record VideoSettings := mkVideoSettings {
  prompt : string;
  duration : Duration;
  resolution : Resolution;
  voice : string
}.

(** ** Effects: a state and exception monad

    [M St A] is a computation over a state [St] (the log of external calls,
    the React state) that returns an [A] or throws. *)
Module Eff.

Import JS.

Definition M (St A : Type) : Type := St -> outcome A * St.

Definition ret {St A} (a : A) : M St A := fun s => (Returned a, s).

Definition bind {St A B} (c : M St A) (k : A -> M St B) : M St B :=
  fun s =>
    match c s with
    | (Returned a, s') => k a s'
    | (Thrown e, s') => (Thrown e, s')
    end.

Definition throw {St A} (e : exn) : M St A := fun s => (Thrown e, s).

(** An expression that may throw, run inside a computation. *)
Definition lift {St A} (o : outcome A) : M St A := fun s => (o, s).

Definition modify {St} (f : St -> St) : M St unit :=
  fun s => (Returned tt, f s).

Definition get {St} : M St St := fun s => (Returned s, s).

(** [try { body } catch (e) { handler e }]. *)
Definition tryCatch {St A} (body : M St A) (handler : exn -> M St A)
  : M St A :=
  fun s =>
    match body s with
    | (Returned a, s') => (Returned a, s')
    | (Thrown e, s') => handler e s'
    end.

(** [try { body } finally { fin }], for a [fin] that returns nothing. *)
Definition tryFinally {St A} (body : M St A) (fin : M St unit) : M St A :=
  fun s =>
    match body s with
    | (r, s') =>
        match fin s' with
        | (Returned _, s'') => (r, s'')
        | (Thrown e, s'') => (Thrown e, s'')
        end
    end.

End Eff.

Declare Scope eff_scope.
Delimit Scope eff_scope with eff.
Notation "x <- c ;; k" := (Eff.bind c (fun x => k))
  (at level 61, c at next level, right associativity) : eff_scope.
Notation "c ;;; k" := (Eff.bind c (fun _ => k))
  (at level 61, right associativity) : eff_scope.

(** Sum of a list of numbers. *)
Definition sumQ (l : list JS.number) : JS.number := fold_right Qplus 0 l.

(** ** [app/api/generate-script/route.ts]: the pure helpers *)
Module Route.

Definition stopWords : list string :=
  ["a"; "an"; "the"; "and"; "or"; "but"; "in"; "on"; "at"; "to"; "for";
   "create"; "video"; "about"].

(** The predicate of the [filter] in [extractKeywords]. *)
Definition keep (word : string) : bool :=
  negb (JS.includes stopWords word) && (3 <? String.length word)%nat.

Definition extractKeywords (prompt : string) : list string :=
  let words := JS.split_ws (JS.toLowerCase prompt) in
  JS.slice0 3 (filter keep words).

Definition templates (prompt : string) : list string :=
  [ "Welcome to this amazing " ++ prompt ++ ". Let's dive right in!";
    "Here's what makes " ++ prompt ++ " so special and unique.";
    "You won't believe these incredible facts about " ++ prompt ++ ".";
    "This is the ultimate guide to " ++ prompt ++ " you've been waiting for.";
    "Transform your life with " ++ prompt ++ " starting today." ].

Definition createFallbackScript (prompt : string) (duration : JS.number)
  : list ScriptSegment :=
  let wordsPerSecond : JS.number := 5 # 2 in
  let totalWords := JS.floor (duration * wordsPerSecond) in
  let segmentCount := JS.ceil (duration / 5) in
  let segmentDuration := duration / inject_Z segmentCount in
  let keywords := extractKeywords prompt in
  map (fun i =>
         let text := nth (i mod List.length (templates prompt))%nat
                         (templates prompt) "" in
         mkScriptSegment text segmentDuration keywords)
      (seq 0 (Z.to_nat segmentCount)).

(** *** The [POST] handler *)

(** What the handler does to the outside world, in order. *)
Inductive effect :=
| ReadBody        (* await req.json() *)
| Fetch           (* fetch('https://api.openai.com/v1/chat/completions') *)
| ConsoleError.   (* console.error(...) *)

Definition isReadBody (e : effect) : bool :=
  match e with ReadBody => true | _ => false end.

Definition isFetch (e : effect) : bool :=
  match e with Fetch => true | _ => false end.

(** The response of the text-generation service: [response.ok] and the
    result of [await response.json()]. *)
Record HttpResponse := mkHttpResponse {
  resp_ok : bool;
  resp_json : JS.outcome JS.value
}.

(** Everything outside the handler that a run of it depends on.
    [env_body k] is the result of the [k]-th [await req.json()] of the run
    (counting from 0), already destructured into [prompt] and [duration];
    [env_fetch] is the result of awaiting the [fetch]; [env_JSON_parse] is
    [JSON.parse]. *)
Record Env := mkEnv {
  env_apiKey : option string;
  env_body : nat -> JS.outcome (string * JS.number);
  env_fetch : JS.outcome HttpResponse;
  env_JSON_parse : JS.value -> JS.outcome JS.value
}.

(** The argument of [NextResponse.json] with its status. *)
Record Response := mkResponse {
  res_status : nat;
  res_error : option string;
  res_segments : JS.value
}.

(** A script as it is serialised in the response body. *)
Definition segmentValue (s : ScriptSegment) : JS.value :=
  JS.VObj [ ("text", JS.VStr (seg_text s));
            ("duration", JS.VNum (seg_duration s));
            ("keywords", JS.VArr (map JS.VStr (seg_keywords s))) ].

Definition scriptValue (script : list ScriptSegment) : JS.value :=
  JS.VArr (map segmentValue script).




(** Computations of the handler: the state is the log of effects so far. *)
Definition P := Eff.M (list effect).

Definition emit (e : effect) : P unit := Eff.modify (fun log => (log ++ [e])%list).

(** [await req.json()], destructured.  Its outcome depends on how many
    reads of the body came before it. *)
Definition reqJson (env : Env) : P (string * JS.number) :=
  (log <- Eff.get ;;
   emit ReadBody ;;;
   Eff.lift (env_body env (List.length (filter isReadBody log))))%eff.

(** [!apiKey]. *)
Definition apiKeyMissing (env : Env) : bool :=
  match env_apiKey env with
  | None => true
  | Some k => negb (JS.truthyStr k)
  end.

(** [data.choices[0].message.content]. *)
Definition contentOf (data : JS.value) : JS.outcome JS.value :=
  match JS.getProp data "choices" with
  | JS.Thrown e => JS.Thrown e
  | JS.Returned choices =>
      match JS.getProp choices "0" with
      | JS.Thrown e => JS.Thrown e
      | JS.Returned first =>
          match JS.getProp first "message" with
          | JS.Thrown e => JS.Thrown e
          | JS.Returned message => JS.getProp message "content"
          end
      end
  end.

(** [parsed.segments || parsed]. *)
Definition segmentsOf (parsed : JS.value) : JS.outcome JS.value :=
  match JS.getProp parsed "segments" with
  | JS.Thrown e => JS.Thrown e
  | JS.Returned s => JS.Returned (if JS.truthy s then s else parsed)
  end.

Definition POST (env : Env) : P Response :=
  (Eff.tryCatch
     (pd <- reqJson env ;;
      let '(prompt, duration) := pd in
      if apiKeyMissing env then
        Eff.ret (mkResponse 200 (Some "API key not configured")
                   (scriptValue (createFallbackScript prompt duration)))
      else
        emit Fetch ;;;
        response <- Eff.lift (env_fetch env) ;;
        if negb (resp_ok response) then
          Eff.throw (JS.ErrorObj "OpenAI API request failed")
        else
          data <- Eff.lift (resp_json response) ;;
          content <- Eff.lift (contentOf data) ;;
          segments <-
            Eff.tryCatch
              (parsed <- Eff.lift (env_JSON_parse env content) ;;
               Eff.lift (segmentsOf parsed))
              (fun _ =>
                 Eff.ret (scriptValue (createFallbackScript prompt duration))) ;;
          Eff.ret (mkResponse 200 None segments))
     (fun error =>
        emit ConsoleError ;;;
        pd <- reqJson env ;;
        let '(prompt, duration) := pd in
        Eff.ret (mkResponse 200 None
                   (scriptValue (createFallbackScript prompt duration)))))%eff.

(** A run of the handler from an empty log. *)
Definition runPOST (env : Env) : JS.outcome Response * list effect :=
  POST env [].

(** The service part of the handler up to the content it parses:
    [fetch], the test of [response.ok], [response.json()] and
    [data.choices[0].message.content]; what it throws is what sends the
    handler into its [catch] block. *)
Definition serviceContent (env : Env) : JS.outcome JS.value :=
  match env_fetch env with
  | JS.Thrown e => JS.Thrown e
  | JS.Returned response =>
      if negb (resp_ok response) then
        JS.Thrown (JS.ErrorObj "OpenAI API request failed")
      else
        match resp_json response with
        | JS.Thrown e => JS.Thrown e
        | JS.Returned data => contentOf data
        end
  end.

(** How often an effect is in a log. *)
Definition countEffect (p : effect -> bool) (log : list effect) : nat :=
  List.length (filter p log).

(** What the [catch] block of the handler produces: the fallback script
    for the prompt and duration of the second read of the body, or the
    exception of that read. *)
Definition catchOutcome (env : Env) : JS.outcome Response :=
  match env_body env 1 with
  | JS.Returned (prompt, duration) =>
      JS.Returned
        (mkResponse 200 None
           (scriptValue (createFallbackScript prompt duration)))
  | JS.Thrown e => JS.Thrown e
  end.

(** The [segments] of the inner [try]/[catch] for the content [content]. *)
Definition segmentsFor (env : Env) (prompt : string) (duration : JS.number)
  (content : JS.value) : JS.value :=
  match env_JSON_parse env content with
  | JS.Thrown _ => scriptValue (createFallbackScript prompt duration)
  | JS.Returned parsed =>
      match segmentsOf parsed with
      | JS.Returned segments => segments
      | JS.Thrown _ => scriptValue (createFallbackScript prompt duration)
      end
  end.

End Route.


(** ** The Clip Selector ([selectClipsForDuration] of [lib/videoSearch]) *)
Module ClipSelector.

(** The clip [c] shortened from its end to [d] seconds: the URL and the
    in-point stay. *)
Definition trim (c : VideoClip) (d : JS.number) : VideoClip :=
  mkVideoClip (clip_url c) d (clip_startTime c).

(** One pass over the candidates in their given order, from the running
    total [total]: stop once the total has reached the target, otherwise
    take the clip whole, or trimmed to what is still needed when it would
    overshoot.  Returns the clips taken and the new running total. *)
Fixpoint onePass (candidates : list VideoClip) (target total : JS.number)
  : list VideoClip * JS.number :=
  match candidates with
  | [] => ([], total)
  | c :: rest =>
      if Qle_bool target total then ([], total)
      else
        let remaining := target - total in
        let take :=
          if Qle_bool (clip_duration c) remaining then clip_duration c
          else remaining in
        let '(more, total') := onePass rest target (total + take) in
        (trim c take :: more, total')
  end.

(** Up to [n] passes over the candidate list; [None] when the target is
    still not met after the last of them.  A target that is already met
    (one that is not positive, at the start) takes nothing. *)
Fixpoint passes (n : nat) (candidates : list VideoClip)
  (target total : JS.number) : option (list VideoClip) :=
  if Qle_bool target total then Some []
  else
    match n with
    | O => None
    | S n' =>
        let '(taken, total') := onePass candidates target total in
        match passes n' candidates target total' with
        | Some more => Some (taken ++ more)%list
        | None => None
        end
    end.

(** Modelled from the spec: [selectClipsForDuration] lives in
    [lib/videoSearch], which is not in the tree.  Section 4.2 of the
    specification: fail on an empty candidate list; iterate the candidates
    in the given order with a running total, taking each whole or trimmed
    to the remaining duration; stop as soon as the total reaches the
    target; when the candidates run out first, go over the list again, and
    fail when a maximum number of passes is exceeded.  The specification
    does not fix that maximum: it is the parameter [maxPasses], which
    counts every pass, the first included.  [None] is the error. *)
Definition select (maxPasses : nat) (candidates : list VideoClip)
  (target : JS.number) : option (list VideoClip) :=
  match candidates with
  | [] => None
  | _ :: _ => passes maxPasses candidates target 0
  end.

Definition durations (clips : list VideoClip) : list JS.number :=
  map clip_duration clips.

Definition totalDuration (clips : list VideoClip) : JS.number :=
  sumQ (durations clips).

(** How a selection ends: whole clips [pre], then the clip [c] cut to
    [take], which is exactly what was missing after [pre]. *)
Definition endsExactly (target total : Q) (pre : list VideoClip)
  (c : VideoClip) (take : Q) : Prop :=
  take == target - (total + totalDuration pre)
  /\ 0 < take /\ take <= clip_duration c.

End ClipSelector.

(** ** The Caption Aligner ([generateSubtitles] of [lib/textToSpeech]) *)
Module CaptionAligner.

Fixpoint concatStrings (l : list string) : string :=
  match l with
  | [] => ""
  | x :: rest => x ++ concatStrings rest
  end.

(** A policy that cuts a text into caption-sized chunks.  The
    specification leaves the policy open (sentence boundaries or word
    windows); what it requires of any policy is that the chunks, put
    together in order, are the text, and a chunk is never empty. *)
Class ChunkPolicy := mkChunkPolicy {
  chunk : string -> list string;
  chunk_concat : forall text, concatStrings (chunk text) = text;
  chunk_nonempty : forall text c, In c (chunk text) -> c <> ""
}.

(** Sentence terminators. *)
Definition isTerminator (c : ascii) : bool :=
  (Ascii.eqb c "." || Ascii.eqb c "!" || Ascii.eqb c "?")%char.

(** Cut after every sentence terminator. *)
Fixpoint sentences (text : string) : list string :=
  match text with
  | EmptyString => []
  | String c rest =>
      if isTerminator c then String c EmptyString :: sentences rest
      else
        match sentences rest with
        | s :: more => String c s :: more
        | [] => [String c EmptyString]
        end
  end.

Lemma sentences_concat (text : string) :
  concatStrings (sentences text) = text.
Proof.
  induction text as [|c rest IH]; [reflexivity|].
  cbn [sentences]. destruct (isTerminator c).
  - cbn [concatStrings]. now rewrite IH.
  - destruct (sentences rest) as [|s more].
    + simpl in IH. now rewrite <- IH.
    + cbn [concatStrings] in *. simpl. now rewrite IH.
Qed.

Lemma sentences_nonempty (text c : string) :
  In c (sentences text) -> c <> "".
Proof.
  revert c. induction text as [|x rest IH]; intros c Hin; [destruct Hin|].
  cbn [sentences] in Hin. destruct (isTerminator x).
  - destruct Hin as [<-|Hin]; [discriminate | now apply IH].
  - destruct (sentences rest) as [|s more].
    + destruct Hin as [<-|[]]. discriminate.
    + destruct Hin as [<-|Hin]; [discriminate|].
      apply IH. now right.
Qed.

(** Cutting at sentence ends is a chunk policy. *)
Definition sentencePolicy : ChunkPolicy :=
  mkChunkPolicy sentences sentences_concat sentences_nonempty.

Definition totalLength (chunks : list string) : nat :=
  fold_right (fun c n => (String.length c + n)%nat) 0%nat chunks.

Definition ofNat (n : nat) : JS.number := inject_Z (Z.of_nat n).

(** Lay the chunks out one after the other from [start]: a chunk gets the
    share of [D] that its length has in [total]; the last chunk ends at [D]
    whatever the shares added up to. *)
Fixpoint layout (D : JS.number) (total : nat) (start : JS.number)
  (chunks : list string) : list SubtitleSegment :=
  match chunks with
  | [] => []
  | c :: rest =>
      let stop :=
        match rest with
        | [] => D
        | _ :: _ => start + D * ofNat (String.length c) / ofNat total
        end in
      mkSubtitleSegment start stop c :: layout D total stop rest
  end.

(** Modelled from the spec: [generateSubtitles] lives in
    [lib/textToSpeech], which is not in the tree.  Section 4.4 of the
    specification: split the text into chunks, give each chunk a share of
    the audio duration proportional to its length in characters, make the
    segments contiguous from 0 and let the final segment absorb the
    rounding error so that it ends at the audio duration. *)
Definition generateSubtitles `{ChunkPolicy} (text : string)
  (D : JS.number) : list SubtitleSegment :=
  let chunks := chunk text in
  layout D (totalLength chunks) 0 chunks.

(** [segments[i].endTime == segments[i+1].startTime] for every [i]. *)
Fixpoint contiguous (segments : list SubtitleSegment) : Prop :=
  match segments with
  | [] => True
  | a :: rest =>
      match rest with
      | [] => True
      | b :: _ => sub_endTime a = sub_startTime b /\ contiguous rest
      end
  end.

End CaptionAligner.

(** ** [components/VideoGenerator.tsx] *)
Module VideoGenerator.

Import JS.

(** An audio or video asset, by the handle that names it. *)
Definition Blob := string.

(** The functions of [lib/] and of the browser that [handleGenerate]
    calls; their sources are not in the tree, so a run is stated for any
    behaviour of theirs.  An awaited call either returns or throws. *)
Record Services := mkServices {
  generateScript : string -> number -> outcome (list ScriptSegment);
  createFallbackScript : string -> number -> list ScriptSegment;
  searchVideos : list string -> number -> outcome (list VideoClip);
  selectClipsForDuration :
    list VideoClip -> number -> outcome (list VideoClip);
  generateVoiceover : string -> string -> outcome (Blob * double);
  generateSubtitles : string -> double -> outcome (list SubtitleSegment);
  loadFFmpeg : outcome unit;
  composeVideo :
    list VideoClip -> list SubtitleSegment -> Blob -> Resolution
    -> outcome Blob;
  createObjectURL : Blob -> string
}.

(** The calls a run makes, with their arguments, in order. *)
Inductive call :=
| CallGenerateScript (prompt : string) (duration : number)
| CallConsoleError
| CallCreateFallbackScript (prompt : string) (duration : number)
| CallSearchVideos (keywords : list string) (duration : number)
| CallSelectClips (clips : list VideoClip) (duration : number)
| CallGenerateVoiceover (text voice : string)
| CallGenerateSubtitles (text : string) (duration : double)
| CallLoadFFmpeg
| CallComposeVideo (clips : list VideoClip) (subtitles : list SubtitleSegment)
    (audio : Blob) (res : Resolution)
| CallCreateObjectURL (video : Blob).

(** Narration synthesis, caption alignment and composition. *)
Definition isLateStage (c : call) : bool :=
  match c with
  | CallGenerateVoiceover _ _ | CallGenerateSubtitles _ _
  | CallLoadFFmpeg | CallComposeVideo _ _ _ _ | CallCreateObjectURL _ => true
  | _ => false
  end.

(** The component's React state. *)
Record UI := mkUI {
  settings : VideoSettings;
  isGenerating : bool;
  progress : string;
  currentStep : nat;
  videoUrl : string;
  error : string
}.

(** The initial state of the component: [useState] defaults. *)
Definition initialUI : UI :=
  mkUI (mkVideoSettings "" D30 R1080x1920 "") false "" 0 "" "".

Record Run := mkRun {
  ui : UI;
  calls : list call
}.

Definition H := Eff.M Run.

Definition setUI (f : UI -> UI) : H unit :=
  Eff.modify (fun r => mkRun (f (ui r)) (calls r)).

Definition setIsGenerating (b : bool) : H unit :=
  setUI (fun u => mkUI (settings u) b (progress u) (currentStep u)
                       (videoUrl u) (error u)).

Definition setProgress (p : string) : H unit :=
  setUI (fun u => mkUI (settings u) (isGenerating u) p (currentStep u)
                       (videoUrl u) (error u)).

Definition setCurrentStep (n : nat) : H unit :=
  setUI (fun u => mkUI (settings u) (isGenerating u) (progress u) n
                       (videoUrl u) (error u)).

Definition setVideoUrl (url : string) : H unit :=
  setUI (fun u => mkUI (settings u) (isGenerating u) (progress u)
                       (currentStep u) url (error u)).

Definition setError (e : string) : H unit :=
  setUI (fun u => mkUI (settings u) (isGenerating u) (progress u)
                       (currentStep u) (videoUrl u) e).

(** Record the call [c], then continue with its outcome [o]. *)
Definition invoke {A} (c : call) (o : outcome A) : H A :=
  (Eff.modify (fun r => mkRun (ui r) (calls r ++ [c])%list) ;;;
   Eff.lift o)%eff.

(** [err instanceof Error ? err.message : 'Unknown error occurred']. *)
Definition errorMessageOf (err : exn) : string :=
  match err with
  | ErrorObj message => message
  | NonError => "Unknown error occurred"
  end.

(** [handleGenerate].  [st] is the [settings] of the render whose handler
    runs.  The progress callback handed to [composeVideo] only replaces the
    progress message while that call is pending; the message is replaced
    again as soon as the call settles, so the callback is left out. *)
Definition handleGenerate (svc : Services) (st : VideoSettings) : H unit :=
  (setIsGenerating true ;;;
   setProgress "Starting video generation..." ;;;
   setCurrentStep 0 ;;;
   setError "" ;;;
   setVideoUrl "" ;;;
   Eff.tryFinally
     (Eff.tryCatch
        ((* Step 1: Generate script *)
         setCurrentStep 1 ;;;
         setProgress "Generating AI script..." ;;;
         scriptSegments <-
           Eff.tryCatch
             (invoke (CallGenerateScript (prompt st) (seconds (duration st)))
                (generateScript svc (prompt st) (seconds (duration st))))
             (fun _ =>
                invoke CallConsoleError (Returned tt) ;;;
                invoke
                  (CallCreateFallbackScript (prompt st)
                     (seconds (duration st)))
                  (Returned
                     (createFallbackScript svc (prompt st)
                        (seconds (duration st))))) ;;
         (* Step 2: Search for videos *)
         setCurrentStep 2 ;;;
         setProgress "Searching for relevant videos..." ;;;
         let allKeywords := flat_map seg_keywords scriptSegments in
         let uniqueKeywords := unique allKeywords in
         videoClips <-
           invoke (CallSearchVideos uniqueKeywords (seconds (duration st)))
             (searchVideos svc uniqueKeywords (seconds (duration st))) ;;
         if (List.length videoClips =? 0)%nat then
           Eff.throw (ErrorObj "No videos found for the given prompt")
         else
           selectedClips <-
             invoke (CallSelectClips videoClips (seconds (duration st)))
               (selectClipsForDuration svc videoClips
                  (seconds (duration st))) ;;
           (* Step 3: Generate voiceover *)
           setCurrentStep 3 ;;;
           setProgress "Generating voiceover..." ;;;
           let fullScript := join " " (map seg_text scriptSegments) in
           voiceover <-
             invoke (CallGenerateVoiceover fullScript (voice st))
               (generateVoiceover svc fullScript (voice st)) ;;
           let '(audioBlob, duration') := voiceover in
           (* Step 4: Generate subtitles *)
           setCurrentStep 4 ;;;
           setProgress "Creating subtitles..." ;;;
           let captionDuration :=
             if truthyDouble duration' then duration'
             else Finite (seconds (duration st)) in
           subtitles <-
             invoke (CallGenerateSubtitles fullScript captionDuration)
               (generateSubtitles svc fullScript captionDuration) ;;
           (* Step 5: Load FFmpeg *)
           setCurrentStep 5 ;;;
           setProgress "Loading video processor..." ;;;
           invoke CallLoadFFmpeg (loadFFmpeg svc) ;;;
           (* Step 6: Compose final video *)
           setCurrentStep 6 ;;;
           setProgress "Composing final video..." ;;;
           videoBlob <-
             invoke
               (CallComposeVideo selectedClips subtitles audioBlob
                  (resolution st))
               (composeVideo svc selectedClips subtitles audioBlob
                  (resolution st)) ;;
           (* Create download URL *)
           url <-
             invoke (CallCreateObjectURL videoBlob)
               (Returned (createObjectURL svc videoBlob)) ;;
           setVideoUrl url ;;;
           setProgress "Video generated successfully!" ;;;
           setCurrentStep 7)
        (fun err =>
           let errorMessage := errorMessageOf err in
           setError errorMessage ;;;
           setProgress ""))
     (setIsGenerating false))%eff.

(** [disabled={isGenerating || !settings.prompt}] of the generate button. *)
Definition generateDisabled (u : UI) : bool :=
  isGenerating u || negb (truthyStr (prompt (settings u))).

(** A click on the generate button: a disabled button dispatches no click
    event; an enabled one runs [onClick={handleGenerate}] with the settings
    of the current render. *)
Definition clickGenerate (svc : Services) (r : Run) : Run :=
  if generateDisabled (ui r) then r
  else snd (handleGenerate svc (settings (ui r)) r).

(** A run of [handleGenerate] from the state [u], with an empty call log. *)
Definition run (svc : Services) (u : UI) : outcome unit * Run :=
  handleGenerate svc (settings u) (mkRun u []).

(** The script a run works with: the one [generateScript] returns, or the
    fallback when it throws. *)
Definition scriptOf (svc : Services) (st : VideoSettings)
  : list ScriptSegment :=
  match generateScript svc (prompt st) (seconds (duration st)) with
  | Returned script => script
  | Thrown _ => createFallbackScript svc (prompt st) (seconds (duration st))
  end.

(** [uniqueKeywords] and [fullScript] of a run. *)
Definition lookupKeywords (svc : Services) (st : VideoSettings)
  : list string :=
  unique (flat_map seg_keywords (scriptOf svc st)).

Definition fullScriptOf (svc : Services) (st : VideoSettings) : string :=
  join " " (map seg_text (scriptOf svc st)).

(** *** The rest of the component: voices, controls and what is shown *)

(** A [SpeechSynthesisVoice], as far as the component reads it. *)
Record SpeechSynthesisVoice := mkVoice {
  voice_name : string;
  voice_lang : string
}.

(** [setSettings(prev => ({ ...prev, voice }))] and its siblings
    [setSettings({ ...settings, field })]. *)
Definition withSettings (f : VideoSettings -> VideoSettings) (u : UI) : UI :=
  mkUI (f (settings u)) (isGenerating u) (progress u) (currentStep u)
       (videoUrl u) (error u).

Definition withPrompt (v : string) (st : VideoSettings) : VideoSettings :=
  mkVideoSettings v (duration st) (resolution st) (voice st).

Definition withDuration (d : Duration) (st : VideoSettings) : VideoSettings :=
  mkVideoSettings (prompt st) d (resolution st) (voice st).

Definition withResolution (r : Resolution) (st : VideoSettings)
  : VideoSettings :=
  mkVideoSettings (prompt st) (duration st) r (voice st).

Definition withVoice (v : string) (st : VideoSettings) : VideoSettings :=
  mkVideoSettings (prompt st) (duration st) (resolution st) v.

(** [loadVoices] of the mount effect, on the React state and the [voices]
    state.  [available] is the outcome of [await getAvailableVoices()]; the
    effect does not await [loadVoices()], so a rejection changes nothing. *)
Definition loadVoices (available : outcome (list SpeechSynthesisVoice))
  (state : UI * list SpeechSynthesisVoice)
  : UI * list SpeechSynthesisVoice :=
  match available with
  | Thrown _ => state
  | Returned availableVoices =>
      let u := fst state in
      if (0 <? List.length availableVoices)%nat then
        (withSettings
           (withVoice (voice_name (nth 0 availableVoices (mkVoice "" ""))))
           u,
         availableVoices)
      else (u, availableVoices)
  end.

(** The [steps] of the progress display. *)
Definition steps : list string :=
  [ "Ready"; "Generating Script"; "Searching Videos"; "Creating Voiceover";
    "Adding Subtitles"; "Loading Processor"; "Composing Video"; "Complete" ].

(** [(currentStep / (steps.length - 1)) * 100], the width of the progress
    bar in percent. *)
Definition progressWidth (u : UI) : number :=
  inject_Z (Z.of_nat (currentStep u))
  / inject_Z (Z.of_nat (List.length steps - 1)) * 100.

(** [index <= currentStep]: the step circle [index] is highlighted. *)
Definition stepReached (index : nat) (u : UI) : bool :=
  (index <=? currentStep u)%nat.

(** What the component renders, as far as it depends on the state. *)
Record View := mkView {
  inputsDisabled : bool;      (* disabled={isGenerating} *)
  buttonDisabled : bool;      (* disabled={isGenerating || !settings.prompt} *)
  buttonLabel : string;
  showProgress : bool;        (* (isGenerating || progress) && ... *)
  showError : bool;           (* error && ... *)
  showVideo : bool            (* videoUrl && ... *)
}.

Definition render (u : UI) : View :=
  mkView
    (isGenerating u)
    (generateDisabled u)
    (if isGenerating u then "Generating..." else "Generate Video")
    (isGenerating u || truthyStr (progress u))
    (truthyStr (error u))
    (truthyStr (videoUrl u)).

(** What the user can do to the form. *)
Inductive event :=
| ChangePrompt (v : string)
| ChooseDuration (d : Duration)
| ChooseResolution (r : Resolution)
| ChooseVoice (v : string)
| ClickGenerate.

(** The handlers of the controls.  A disabled control dispatches no event,
    so while a run is in progress the settings stay as they are. *)
Definition handleEvent (svc : Services) (ev : event) (r : Run) : Run :=
  match ev with
  | ClickGenerate => clickGenerate svc r
  | ChangePrompt v =>
      if isGenerating (ui r) then r
      else mkRun (withSettings (withPrompt v) (ui r)) (calls r)
  | ChooseDuration d =>
      if isGenerating (ui r) then r
      else mkRun (withSettings (withDuration d) (ui r)) (calls r)
  | ChooseResolution res =>
      if isGenerating (ui r) then r
      else mkRun (withSettings (withResolution res) (ui r)) (calls r)
  | ChooseVoice v =>
      if isGenerating (ui r) then r
      else mkRun (withSettings (withVoice v) (ui r)) (calls r)
  end.

(** A session: the events of the user, one after the other. *)
Definition session (svc : Services) (events : list event) (r : Run) : Run :=
  fold_left (fun r ev => handleEvent svc ev r) events r.

(** The pipeline stage a call belongs to, in the order of the source. *)
Definition stageOf (c : call) : nat :=
  match c with
  | CallGenerateScript _ _ => 1
  | CallConsoleError => 2
  | CallCreateFallbackScript _ _ => 3
  | CallSearchVideos _ _ => 4
  | CallSelectClips _ _ => 5
  | CallGenerateVoiceover _ _ => 6
  | CallGenerateSubtitles _ _ => 7
  | CallLoadFFmpeg => 8
  | CallComposeVideo _ _ _ _ => 9
  | CallCreateObjectURL _ => 10
  end.

(** The calls of a list are in pipeline order, none of them twice. *)
Fixpoint inPipelineOrder (stages : list nat) : bool :=
  match stages with
  | [] => true
  | a :: rest =>
      match rest with
      | [] => true
      | b :: _ => (a <? b)%nat && inPipelineOrder rest
      end
  end.

(** What holds of the state whenever the component waits for the user:
    no run is in progress, the step index is one of the [steps], and an
    error and a video are not shown together. *)
Definition settled (u : UI) : Prop :=
  isGenerating u = false
  /\ (currentStep u < List.length steps)%nat
  /\ showError (render u) && showVideo (render u) = false.

(** The stages of a complete run, in order: with the fallback script when
    [generateScript] threw, without it otherwise. *)
Definition fullPipeline (fallback : bool) : list nat :=
  if fallback then [1; 2; 3; 4; 5; 6; 7; 8; 9; 10]%nat
  else [1; 4; 5; 6; 7; 8; 9; 10]%nat.

(** Whether [generateScript] throws for the settings [st]. *)
Definition scriptThrows (svc : Services) (st : VideoSettings) : bool :=
  match generateScript svc (prompt st) (seconds (duration st)) with
  | Returned _ => false
  | Thrown _ => true
  end.

End VideoGenerator.

(** ** Keyword extraction in the specification's words *)
Module KeywordSpec.

(** The word collected so far, if there is one. *)
Definition flush (cur : string) : list string :=
  if String.eqb cur "" then [] else [cur].

(** The white-space separated words of [s], reading left to right with the
    word in progress in [cur]. *)
Fixpoint wordsFrom (cur : string) (s : string) : list string :=
  match s with
  | EmptyString => flush cur
  | String c rest =>
      if JS.isSpace c then (flush cur ++ wordsFrom "" rest)%list
      else wordsFrom (cur ++ String c "") rest
  end.

Definition words (s : string) : list string := wordsFrom "" s.

Definition isStopWord (w : string) : bool :=
  existsb (String.eqb w) Route.stopWords.

(** Lowercase the prompt, split on white space, discard the stop words and
    the words of length at most 3, keep the first 3 that remain. *)
Definition keywords (prompt : string) : list string :=
  firstn 3
    (filter (fun w => negb (isStopWord w) && negb (String.length w <=? 3)%nat)
       (words (JS.toLowerCase prompt))).

(** Put [cur] in front of the first piece. *)
Definition onHead (cur : string) (pieces : list string) : list string :=
  match pieces with
  | w :: ws => (cur ++ w) :: ws
  | [] => [cur]
  end.

Definition nonEmpty (w : string) : bool := negb (String.eqb w "").

End KeywordSpec.

(** ** Predicates on strings used in the statements *)
Module StringFacts.

(** Every character of [s] satisfies [p]. *)
Fixpoint allChars (p : ascii -> bool) (s : string) : bool :=
  match s with
  | EmptyString => true
  | String c rest => p c && allChars p rest
  end.

Definition notSpace (c : ascii) : bool := negb (JS.isSpace c).

Definition notUpper (c : ascii) : bool := negb (JS.isUpper c).

End StringFacts.

(** ** Concrete inputs for the examples *)
Module Examples.

Import JS.

(** A one-second clip. *)
Definition oneSecondClip : VideoClip := mkVideoClip "a.mp4" 1 None.

(** Three four-second clips: scenario B of the specification. *)
Definition fourSecondClips : list VideoClip :=
  [ mkVideoClip "a.mp4" 4 None;
    mkVideoClip "b.mp4" 4 (Some 2);
    mkVideoClip "c.mp4" 4 None ].


Definition parseNumbers (content : value) : outcome value :=
  match content with
  | VStr "[1, 2]" => Returned (VArr [VNum 1; VNum 2])
  | _ => Thrown (ErrorObj "Unexpected token")
  end.

Definition coffeeBody (k : nat) : outcome (string * number) :=
  match k with
  | O => Returned ("morning coffee routine", 15)
  | S _ => Thrown (ErrorObj "Body is unusable")
  end.



(** The service cannot be reached. *)
Definition networkErrorEnv : Route.Env :=
  Route.mkEnv (Some "sk-test") coffeeBody (Thrown (ErrorObj "fetch failed"))
    parseNumbers.

(** Services for a run of the component: the script service is down, clip
    lookup returns [clips], and the synthesizer reports the duration
    [reported]. *)
Definition demoServicesReporting (clips : list VideoClip) (reported : double)
  : VideoGenerator.Services :=
  VideoGenerator.mkServices
    (fun _ _ => Thrown (ErrorObj "Failed to fetch"))
    Route.createFallbackScript
    (fun _ _ => Returned clips)
    (fun candidates target =>
       match ClipSelector.select 20 candidates target with
       | Some selected => Returned selected
       | None => Thrown (ErrorObj "Not enough footage")
       end)
    (fun _ _ => Returned ("blob:audio", reported))
    (fun text D =>
       match D with
       | Finite seconds =>
           Returned
             (@CaptionAligner.generateSubtitles CaptionAligner.sentencePolicy
                text seconds)
       | _ => Thrown (ErrorObj "Invalid duration")
       end)
    (Returned tt)
    (fun _ _ _ _ => Returned "blob:video")
    (fun b => b).

(** The same, with [reported] seconds of audio. *)
Definition demoServices (clips : list VideoClip) (reported : number)
  : VideoGenerator.Services :=
  demoServicesReporting clips (Finite reported).

Definition coffeeUI : VideoGenerator.UI :=
  VideoGenerator.mkUI
    (mkVideoSettings "morning coffee routine" D30 R1080x1920 "Alex")
    false "" 0 "" "".

(** A request whose body can be read again. *)
Definition rereadableBody (k : nat) : outcome (string * number) :=
  match k with
  | O => Returned ("morning coffee routine", 15)
  | S _ => Returned ("evening tea", 30)
  end.

(** The service answers with status 500, and the body can be read again. *)
Definition notOkEnv : Route.Env :=
  Route.mkEnv (Some "sk-test") rereadableBody
    (Returned (Route.mkHttpResponse false (Returned VNull)))
    parseNumbers.

(** A service that answers with an object that holds the segments. *)
Definition wrappedScript : list ScriptSegment :=
  [ mkScriptSegment "Coffee first." 5 ["coffee"; "morning"] ].

Definition wrappedData : value :=
  VObj [ ("choices",
          VArr [ VObj [ ("message",
                         VObj [ ("content", VStr "{segments}") ]) ] ]) ].

Definition parseWrapped (content : value) : outcome value :=
  match content with
  | VStr "{segments}" =>
      Returned (VObj [ ("title", VStr "Coffee");
                       ("segments", Route.scriptValue wrappedScript) ])
  | _ => Thrown (ErrorObj "Unexpected token")
  end.

Definition wrappedEnv : Route.Env :=
  Route.mkEnv (Some "sk-test") coffeeBody
    (Returned (Route.mkHttpResponse true (Returned wrappedData)))
    parseWrapped.

(** Services whose composer fails after everything else went well. *)
Definition brokenComposerServices (e : exn) : VideoGenerator.Services :=
  VideoGenerator.mkServices
    (fun _ _ => Returned wrappedScript)
    Route.createFallbackScript
    (fun _ _ => Returned fourSecondClips)
    (fun candidates _ => Returned candidates)
    (fun _ _ => Returned ("blob:audio", Finite 12))
    (fun _ _ => Returned [])
    (Returned tt)
    (fun _ _ _ _ => Thrown e)
    (fun b => b).

Definition someVoices : list VideoGenerator.SpeechSynthesisVoice :=
  [ VideoGenerator.mkVoice "Samantha" "en-US";
    VideoGenerator.mkVoice "Daniel" "en-GB" ].

(** Services whose clip lookup fails with [e]. *)
Definition offlineSearchServices (e : exn) : VideoGenerator.Services :=
  VideoGenerator.mkServices
    (fun _ _ => Returned wrappedScript)
    Route.createFallbackScript
    (fun _ _ => Thrown e)
    (fun candidates _ => Returned candidates)
    (fun _ _ => Returned ("blob:audio", Finite 12))
    (fun _ _ => Returned [])
    (Returned tt)
    (fun _ _ _ _ => Returned "blob:video")
    (fun b => b).





End Examples.

(** * Properties *)

(** ** Tactics for runs of [handleGenerate] *)

(** Evaluate the monadic plumbing of a run and the React state, leaving the
    calls of the services in place. *)
Ltac run_eval :=
  cbv beta iota zeta delta
    [VideoGenerator.run VideoGenerator.handleGenerate VideoGenerator.invoke
     VideoGenerator.setIsGenerating VideoGenerator.setProgress
     VideoGenerator.setCurrentStep VideoGenerator.setError
     VideoGenerator.setVideoUrl VideoGenerator.setUI
     VideoGenerator.errorMessageOf
     Eff.tryFinally Eff.tryCatch Eff.bind Eff.throw Eff.lift Eff.modify
     Eff.ret fst snd app Datatypes.length Nat.eqb
     VideoGenerator.ui VideoGenerator.calls VideoGenerator.settings
     VideoGenerator.isGenerating VideoGenerator.progress
     VideoGenerator.currentStep VideoGenerator.videoUrl
     VideoGenerator.error].

(** Follow a run through the outcomes of the calls that are still open. *)
Ltac run_case :=
  match goal with
  | |- context [VideoGenerator.generateScript ?s ?a ?b] =>
      destruct (VideoGenerator.generateScript s a b) eqn:?
  | |- context [VideoGenerator.searchVideos ?s ?a ?b] =>
      destruct (VideoGenerator.searchVideos s a b) as [[|? ?]|?] eqn:?
  | |- context [VideoGenerator.selectClipsForDuration ?s ?a ?b] =>
      destruct (VideoGenerator.selectClipsForDuration s a b) eqn:?
  | |- context [VideoGenerator.generateVoiceover ?s ?a ?b] =>
      destruct (VideoGenerator.generateVoiceover s a b) as [[? ?]|?] eqn:?
  | |- context [VideoGenerator.generateSubtitles ?s ?a ?b] =>
      destruct (VideoGenerator.generateSubtitles s a b) eqn:?
  | |- context [VideoGenerator.loadFFmpeg ?s] =>
      destruct (VideoGenerator.loadFFmpeg s) eqn:?
  | |- context [VideoGenerator.composeVideo ?s ?a ?b ?c ?d] =>
      destruct (VideoGenerator.composeVideo s a b c d) eqn:?
  end.

Ltac run_cases := repeat (run_case; run_eval).


(** ** Strings *)

Example split_ws_plain :
  JS.split_ws "morning coffee  routine" = ["morning"; "coffee"; "routine"].
Proof. reflexivity. Qed.

Example split_ws_edges : JS.split_ws " a " = [""; "a"; ""].
Proof. reflexivity. Qed.

Example split_ws_empty : JS.split_ws "" = [""].
Proof. reflexivity. Qed.

Example split_ws_blank : JS.split_ws "  " = [""; ""].
Proof. reflexivity. Qed.

Example toLowerCase_mixed : JS.toLowerCase "Morning COFFEE" = "morning coffee".
Proof. reflexivity. Qed.

Example extractKeywords_coffee :
  Route.extractKeywords "Create a video about Morning Coffee routine today"
  = ["morning"; "coffee"; "routine"].
Proof. reflexivity. Qed.

Lemma append_empty_r (s : string) : s ++ "" = s.
Proof. induction s as [|c s IH]; simpl; [reflexivity | now rewrite IH]. Qed.

Lemma append_assoc (a b c : string) : (a ++ b) ++ c = a ++ (b ++ c).
Proof. induction a as [|x a IH]; simpl; [reflexivity | now rewrite IH]. Qed.

Lemma split_ws_not_nil (s : string) : JS.split_ws s <> [].
Proof.
  induction s as [|c s IH]; simpl; [discriminate|].
  destruct (JS.isSpace c).
  - destruct s as [|c' s']; [discriminate|].
    destruct (JS.isSpace c'); [exact IH | discriminate].
  - destruct (JS.split_ws s); discriminate.
Qed.

Lemma split_ws_space_cons (c c' : ascii) (s : string) :
  JS.isSpace c = true ->
  JS.split_ws (String c (String c' s))
  = if JS.isSpace c' then JS.split_ws (String c' s)
    else "" :: JS.split_ws (String c' s).
Proof.
  intros Hc.
  change (JS.split_ws (String c (String c' s)))
    with (if JS.isSpace c
          then (if JS.isSpace c' then JS.split_ws (String c' s)
                else "" :: JS.split_ws (String c' s))
          else match JS.split_ws (String c' s) with
               | w :: ws => String c w :: ws
               | [] => [String c ""]
               end).
  now rewrite Hc.
Qed.

Lemma split_ws_space_end (c : ascii) :
  JS.isSpace c = true -> JS.split_ws (String c "") = [""; ""].
Proof. intros Hc. simpl. now rewrite Hc. Qed.

(** A string that starts with white space splits into an empty first piece
    and the rest. *)
Lemma split_ws_leading_space (c : ascii) (s : string) :
  JS.isSpace c = true -> exists tl, JS.split_ws (String c s) = "" :: tl.
Proof.
  revert c; induction s as [|c' s IH]; intros c Hc.
  - rewrite (split_ws_space_end c Hc). eauto.
  - rewrite (split_ws_space_cons c c' s Hc).
    destruct (JS.isSpace c') eqn:Hc'.
    + apply (IH c' Hc').
    + eauto.
Qed.

Lemma flush_filter (cur : string) :
  KeywordSpec.flush cur = filter KeywordSpec.nonEmpty [cur].
Proof.
  unfold KeywordSpec.flush, KeywordSpec.nonEmpty; simpl.
  destruct (String.eqb cur ""); reflexivity.
Qed.

Lemma split_ws_cons_letter (c : ascii) (s : string) :
  JS.isSpace c = false ->
  JS.split_ws (String c s) = KeywordSpec.onHead (String c "") (JS.split_ws s).
Proof.
  intros Hc. cbn [JS.split_ws]. rewrite Hc.
  destruct (JS.split_ws s) eqn:E; [|reflexivity].
  now destruct (split_ws_not_nil s).
Qed.

Lemma onHead_onHead (a b : string) (l : list string) :
  l <> [] -> KeywordSpec.onHead a (KeywordSpec.onHead b l) = KeywordSpec.onHead (a ++ b) l.
Proof.
  destruct l as [|w ws]; [congruence|]. intros _. simpl.
  now rewrite append_assoc.
Qed.

(** The words of the specification are the non-empty pieces of the split. *)
Lemma wordsFrom_split_ws (s cur : string) :
  KeywordSpec.wordsFrom cur s = filter KeywordSpec.nonEmpty (KeywordSpec.onHead cur (JS.split_ws s)).
Proof.
  revert cur; induction s as [|c s IH]; intros cur.
  - simpl. rewrite append_empty_r. apply flush_filter.
  - cbn [KeywordSpec.wordsFrom].
    destruct (JS.isSpace c) eqn:Hc.
    + rewrite IH.
      assert (Hhd : KeywordSpec.onHead "" (JS.split_ws s) = JS.split_ws s).
      { destruct (JS.split_ws s) eqn:E; [|reflexivity].
        now destruct (split_ws_not_nil s). }
      rewrite Hhd.
      destruct s as [|c' s'].
      * rewrite (split_ws_space_end c Hc). simpl.
        rewrite append_empty_r, flush_filter. simpl.
        destruct (KeywordSpec.nonEmpty cur); reflexivity.
      * rewrite (split_ws_space_cons c c' s' Hc).
        destruct (JS.isSpace c') eqn:Hc'.
        -- destruct (split_ws_leading_space c' s' Hc') as [tl Htl].
           rewrite Htl. simpl. rewrite append_empty_r, flush_filter. simpl.
           destruct (KeywordSpec.nonEmpty cur); reflexivity.
        -- cbn [KeywordSpec.onHead]. rewrite append_empty_r, flush_filter.
           cbn [filter]. change (KeywordSpec.nonEmpty "") with false.
           destruct (KeywordSpec.nonEmpty cur); reflexivity.
    + rewrite IH, (split_ws_cons_letter c s Hc).
      now rewrite onHead_onHead by apply split_ws_not_nil.
Qed.

Lemma words_split_ws (s : string) :
  KeywordSpec.words s = filter KeywordSpec.nonEmpty (JS.split_ws s).
Proof.
  unfold KeywordSpec.words. rewrite wordsFrom_split_ws.
  destruct (JS.split_ws s) eqn:E; [now destruct (split_ws_not_nil s)|].
  reflexivity.
Qed.

Lemma filter_filter {A} (f g : A -> bool) (l : list A) :
  (forall x, f x = true -> g x = true) ->
  filter f (filter g l) = filter f l.
Proof.
  intros Hfg. induction l as [|x l IH]; simpl; [reflexivity|].
  destruct (g x) eqn:Hg; simpl.
  - now rewrite IH.
  - destruct (f x) eqn:Hf; [|exact IH].
    rewrite (Hfg x Hf) in Hg. discriminate.
Qed.

Lemma keep_nonEmpty (w : string) : Route.keep w = true -> KeywordSpec.nonEmpty w = true.
Proof.
  unfold Route.keep. intros H. apply andb_true_iff in H as [_ H].
  destruct w; [discriminate | reflexivity].
Qed.

Lemma keep_spec_pred (w : string) :
  negb (KeywordSpec.isStopWord w) && negb (String.length w <=? 3)%nat
  = Route.keep w.
Proof.
  unfold Route.keep, KeywordSpec.isStopWord, JS.includes. f_equal.
  rewrite Nat.ltb_antisym. reflexivity.
Qed.

(** ** Keyword extraction *)

Lemma firstn_not_nil {A} (n : nat) (l : list A) :
  firstn (S n) l <> [] <-> l <> [].
Proof. destruct l; simpl; split; congruence. Qed.

Lemma filter_not_nil {A} (f : A -> bool) (l : list A) :
  filter f l <> [] <-> exists x, In x l /\ f x = true.
Proof.
  split.
  - intros H. destruct (filter f l) as [|x r] eqn:E; [congruence|].
    exists x. apply filter_In. rewrite E. now left.
  - intros [x Hx] E. apply filter_In in Hx. rewrite E in Hx. exact Hx.
Qed.

Lemma in_firstn {A} (n : nat) (l : list A) (x : A) :
  In x (firstn n l) -> In x l.
Proof.
  intros H. rewrite <- (firstn_skipn n l). apply in_or_app. now left.
Qed.

Lemma keep_true (w : string) :
  Route.keep w = true <->
  JS.includes Route.stopWords w = false /\ (3 < String.length w)%nat.
Proof.
  unfold Route.keep. rewrite andb_true_iff, negb_true_iff, Nat.ltb_lt.
  reflexivity.
Qed.

Lemma extractKeywords_kept (prompt : string) :
  Forall (fun w => Route.keep w = true) (Route.extractKeywords prompt).
Proof.
  unfold Route.extractKeywords, JS.slice0. apply Forall_forall.
  intros w Hw. apply in_firstn in Hw. now apply filter_In in Hw.
Qed.

(** C6.  Keyword extraction is the function that the specification
    describes: lowercase the prompt, split it on white space, discard the
    stop words and the words of at most 3 characters, keep the first 3 of
    what remains.  Being a function of the prompt alone it gives the same
    list for the same prompt; the list has at most 3 entries, none of them
    a stop word or of length at most 3, and it can be empty. *)
Theorem extractKeywords_refines_spec (prompt : string) :
  Route.extractKeywords prompt = KeywordSpec.keywords prompt
  /\ (List.length (Route.extractKeywords prompt) <= 3)%nat
  /\ Forall (fun w => JS.includes Route.stopWords w = false
                      /\ ~ (String.length w <= 3)%nat)
       (Route.extractKeywords prompt)
  /\ Route.extractKeywords "a cat" = [].
Proof.
  repeat split.
  - unfold Route.extractKeywords, KeywordSpec.keywords, JS.slice0.
    f_equal. rewrite words_split_ws.
    rewrite (filter_ext _ _ keep_spec_pred).
    symmetry. apply filter_filter. exact keep_nonEmpty.
  - unfold Route.extractKeywords, JS.slice0. apply firstn_le_length.
  - eapply Forall_impl; [|apply extractKeywords_kept].
    intros w Hw. apply keep_true in Hw as [Hs Hl]. split; [exact Hs | lia].
Qed.

(** C5, as stated, fails: a prompt made of stop words and short words
    has no keyword, and the fallback script hands an empty keyword set to
    clip lookup. *)
Lemma extractKeywords_empty_for_short_words :
  Route.extractKeywords "create a video about the sea" = []
  /\ JS.unique
       (flat_map seg_keywords
          (Route.createFallbackScript "create a video about the sea" 15))
     = [].
Proof. split; reflexivity. Qed.

(** C5, amended.  The fallback keywords are at most 3, and there is at
    least one exactly when the lowercased prompt has a white-space separated
    word that is no stop word and is longer than 3 characters; every
    segment of the fallback script carries that same list. *)
Theorem extractKeywords_nonempty_iff (prompt : string) :
  (Route.extractKeywords prompt <> [] <->
   exists w, In w (JS.split_ws (JS.toLowerCase prompt))
             /\ JS.includes Route.stopWords w = false
             /\ (3 < String.length w)%nat)
  /\ (List.length (Route.extractKeywords prompt) <= 3)%nat
  /\ (forall d,
        Forall (fun s => seg_keywords s = Route.extractKeywords prompt)
          (Route.createFallbackScript prompt d)).
Proof.
  split; [|split].
  - unfold Route.extractKeywords, JS.slice0.
    rewrite firstn_not_nil, filter_not_nil.
    split; intros [w [Hin Hk]]; exists w; split; try exact Hin.
    + now apply keep_true.
    + now apply keep_true.
  - unfold Route.extractKeywords, JS.slice0. apply firstn_le_length.
  - intros d. unfold Route.createFallbackScript. apply Forall_forall.
    intros s Hs. apply in_map_iff in Hs as [i [<- _]]. reflexivity.
Qed.

(** ** The fallback script *)

Lemma createFallbackScript_length (prompt : string) (d : JS.number) :
  List.length (Route.createFallbackScript prompt d)
  = Z.to_nat (JS.ceil (d / 5)).
Proof.
  unfold Route.createFallbackScript. now rewrite length_map, length_seq.
Qed.

Lemma createFallbackScript_nth (prompt : string) (d : JS.number) (i : nat) :
  (i < Z.to_nat (JS.ceil (d / 5)%Q))%nat ->
  nth_error (Route.createFallbackScript prompt d) i
  = Some (mkScriptSegment
            (nth (i mod 5) (Route.templates prompt) "")
            (d / inject_Z (JS.ceil (d / 5)))
            (Route.extractKeywords prompt)).
Proof.
  intros Hi. unfold Route.createFallbackScript.
  rewrite nth_error_map, nth_error_seq.
  apply Nat.ltb_lt in Hi. rewrite Hi. reflexivity.
Qed.

Lemma sumQ_constant {A} (f : A -> JS.number) (x : JS.number) (l : list A) :
  (forall a, f a = x) ->
  sumQ (map f l) == inject_Z (Z.of_nat (List.length l)) * x.
Proof.
  intros Hf. induction l as [|a l IH].
  - simpl. ring.
  - cbn [map sumQ fold_right List.length]. fold (sumQ (map f l)).
    rewrite IH, Hf, Nat2Z.inj_succ. unfold Z.succ. rewrite inject_Z_plus.
    ring.
Qed.

(** C1.  For every prompt and every duration d of 15, 30 or 60 seconds
    the fallback script has ceil(d/5) segments, each of duration
    d / ceil(d/5) (which is 5), the durations add up to d, segment i has
    the text of template (i mod 5) for the prompt, and two calls with the
    same arguments give the same list. *)
Theorem createFallbackScript_segments (prompt : string) (d : Duration) :
  let script := Route.createFallbackScript prompt (seconds d) in
  let count := JS.ceil (seconds d / 5) in
  List.length script = Z.to_nat count
  /\ Forall (fun s => seg_duration s = seconds d / inject_Z count
                      /\ seg_duration s == 5) script
  /\ sumQ (map seg_duration script) == seconds d
  /\ (forall i, (i < Z.to_nat count)%nat ->
        option_map seg_text (nth_error script i)
        = nth_error (Route.templates prompt) (i mod 5))
  /\ (forall prompt' d', prompt' = prompt -> d' = seconds d ->
        Route.createFallbackScript prompt' d' = script).
Proof.
  cbv zeta. split; [|split; [|split; [|split]]].
  - apply createFallbackScript_length.
  - unfold Route.createFallbackScript. apply Forall_forall.
    intros s Hs. apply in_map_iff in Hs as [i [<- _]]. cbn [seg_duration].
    split; [reflexivity|]. destruct d; reflexivity.
  - unfold Route.createFallbackScript. rewrite map_map. cbn [seg_duration].
    rewrite (sumQ_constant _ (seconds d / inject_Z (JS.ceil (seconds d / 5))))
      by reflexivity.
    rewrite length_seq. destruct d; reflexivity.
  - intros i Hi. rewrite (createFallbackScript_nth prompt _ i Hi).
    cbn [option_map seg_text].
    symmetry. apply nth_error_nth'.
    change (List.length (Route.templates prompt)) with 5%nat.
    apply Nat.mod_upper_bound. discriminate.
  - intros prompt' d' -> ->. reflexivity.
Qed.

(** ** The Clip Selector *)

Section ClipSelection.

Import ClipSelector.

Lemma Qle_bool_false (a b : Q) : Qle_bool a b = false <-> b < a.
Proof.
  split; intros H.
  - apply Qnot_le_lt. intros Hle. apply Qle_bool_iff in Hle. congruence.
  - destruct (Qle_bool a b) eqn:E; [|reflexivity].
    apply Qle_bool_iff in E. lra.
Qed.

Lemma trim_whole (c : VideoClip) : trim c (clip_duration c) = c.
Proof. now destruct c. Qed.

Lemma totalDuration_app (a b : list VideoClip) :
  totalDuration (a ++ b) == totalDuration a + totalDuration b.
Proof.
  unfold totalDuration, durations.
  induction a as [|x a IH]; simpl.
  - ring.
  - rewrite IH. ring.
Qed.

Lemma totalDuration_cons (c : VideoClip) (l : list VideoClip) :
  totalDuration (c :: l) == clip_duration c + totalDuration l.
Proof. reflexivity. Qed.

(** Once the target is met a pass takes nothing. *)
Lemma onePass_done (candidates : list VideoClip) (target total : Q) :
  target <= total -> onePass candidates target total = ([], total).
Proof.
  intros H. destruct candidates as [|c rest]; [reflexivity|].
  simpl. apply Qle_bool_iff in H. now rewrite H.
Qed.

(** A pass that starts below the target either takes every candidate whole
    and stays below the target, or stops inside the list with the target
    met exactly. *)
Lemma onePass_spec (candidates : list VideoClip) (target : Q) :
  forall total, total < target ->
  let '(taken, total') := onePass candidates target total in
  (total' < target /\ taken = candidates
   /\ total' == total + totalDuration candidates)
  \/ (total' == target
      /\ exists pre c rest take,
           candidates = (pre ++ c :: rest)%list
           /\ taken = (pre ++ [trim c take])%list
           /\ endsExactly target total pre c take).
Proof.
  induction candidates as [|c rest IH]; intros total Hlt.
  - simpl. left. repeat split; [exact Hlt|]. unfold totalDuration. simpl. ring.
  - cbn [onePass].
    assert (Hb : Qle_bool target total = false) by now apply Qle_bool_false.
    rewrite Hb.
    set (remaining := target - total).
    destruct (Qle_bool (clip_duration c) remaining) eqn:Hfit.
    + (* the clip fits whole *)
      apply Qle_bool_iff in Hfit. unfold remaining in Hfit.
      destruct (Qlt_le_dec (total + clip_duration c) target) as [Hbelow|Hmet].
      * specialize (IH (total + clip_duration c) Hbelow).
        destruct (onePass rest target (total + clip_duration c))
          as [more total'].
        destruct IH as [[Hlt' [Hmore Hsum]]
                       |[Heq [pre [c' [rest' [take [Hc [Hm Hend]]]]]]]].
        -- left. subst more. rewrite trim_whole.
           repeat split; [exact Hlt'|].
           rewrite totalDuration_cons. rewrite Hsum. ring.
        -- right. split; [exact Heq|].
           exists (c :: pre), c', rest', take. subst rest more.
           rewrite trim_whole. repeat split.
           ++ destruct Hend as [He _]. rewrite He, totalDuration_cons. ring.
           ++ apply Hend.
           ++ apply Hend.
      * rewrite (onePass_done rest target _ Hmet).
        right. split; [lra|].
        exists [], c, rest, (clip_duration c). repeat split.
        -- unfold totalDuration; simpl. lra.
        -- lra.
        -- lra.
    + (* the clip overshoots: cut it to what is missing *)
      apply Qle_bool_false in Hfit. unfold remaining in *.
      assert (Hmet : target <= total + (target - total)) by lra.
      rewrite (onePass_done rest target _ Hmet).
      right. split; [ring|].
      exists [], c, rest, (target - total). repeat split.
      * unfold totalDuration; simpl. ring.
      * lra.
      * lra.
Qed.

Lemma concat_repeat_S {A} (l : list A) (n : nat) :
  concat (repeat l (S n)) = (l ++ concat (repeat l n))%list.
Proof. reflexivity. Qed.

(** What [passes] returns when it starts below the target. *)
Lemma passes_spec (candidates : list VideoClip) (target : Q) (n : nat) :
  forall total selected,
  total < target ->
  passes n candidates target total = Some selected ->
  exists pre c rest take,
    concat (repeat candidates n) = (pre ++ c :: rest)%list
    /\ selected = (pre ++ [trim c take])%list
    /\ endsExactly target total pre c take.
Proof.
  induction n as [|n IH]; intros total selected Hlt Hsel.
  - simpl in Hsel. apply Qle_bool_false in Hlt. rewrite Hlt in Hsel.
    discriminate.
  - cbn [passes] in Hsel.
    assert (Hb : Qle_bool target total = false) by now apply Qle_bool_false.
    rewrite Hb in Hsel.
    pose proof (onePass_spec candidates target total Hlt) as Hpass.
    destruct (onePass candidates target total) as [taken total'].
    destruct Hpass as [[Hlt' [Htaken Hsum]]
                      |[Heq [pre [c [rest [take [Hc [Ht Hend]]]]]]]].
    + destruct (passes n candidates target total') as [more|] eqn:Hmore;
        [|discriminate].
      injection Hsel as <-.
      destruct (IH total' more Hlt' Hmore)
        as [pre [c [rest [take [Hcyc [Hm [He [Hpos Hle]]]]]]]].
      exists (candidates ++ pre)%list, c, rest, take. subst taken more.
      rewrite concat_repeat_S, Hcyc, <- !app_assoc.
      repeat split; [|exact Hpos|exact Hle].
      rewrite He, totalDuration_app, Hsum. ring.
    + assert (Hdone : passes n candidates target total' = Some []).
      { destruct n; simpl;
          (assert (Hq : Qle_bool target total' = true)
             by (apply Qle_bool_iff; lra)); now rewrite Hq. }
      rewrite Hdone in Hsel. injection Hsel as <-.
      exists pre, c, (rest ++ concat (repeat candidates n))%list, take.
      rewrite concat_repeat_S, Hc, app_nil_r, <- app_assoc.
      repeat split; try apply Hend. exact Ht.
Qed.

(** Enough passes reach the target. *)
Lemma passes_complete (candidates : list VideoClip) (target : Q) (n : nat) :
  forall total,
  total < target ->
  target <= total + inject_Z (Z.of_nat n) * totalDuration candidates ->
  exists selected, passes n candidates target total = Some selected.
Proof.
  induction n as [|n IH]; intros total Hlt Hreach.
  - change (inject_Z (Z.of_nat 0)) with 0 in Hreach. lra.
  - cbn [passes].
    assert (Hb : Qle_bool target total = false) by now apply Qle_bool_false.
    rewrite Hb.
    pose proof (onePass_spec candidates target total Hlt) as Hpass.
    destruct (onePass candidates target total) as [taken total'].
    destruct Hpass as [[Hlt' [_ Hsum]]|[Heq _]].
    + destruct (IH total' Hlt') as [more Hmore].
      * rewrite Nat2Z.inj_succ in Hreach. unfold Z.succ in Hreach.
        rewrite inject_Z_plus in Hreach. rewrite Hsum.
        change (inject_Z 1) with 1 in Hreach. nra.
      * rewrite Hmore. eauto.
    + assert (Hdone : passes n candidates target total' = Some []).
      { destruct n; simpl;
          (assert (Hq : Qle_bool target total' = true)
             by (apply Qle_bool_iff; lra)); now rewrite Hq. }
      rewrite Hdone. eauto.
Qed.

End ClipSelection.

Lemma passes_one_second_short (n : nat) :
  forall total target,
  total + inject_Z (Z.of_nat n) < target ->
  ClipSelector.passes n [Examples.oneSecondClip] target total = None.
Proof.
  induction n as [|n IH]; intros total target Hshort.
  - change (inject_Z (Z.of_nat 0)) with 0 in Hshort.
    simpl. assert (Hb : Qle_bool target total = false)
      by (apply Qle_bool_false; lra).
    now rewrite Hb.
  - rewrite Nat2Z.inj_succ in Hshort. unfold Z.succ in Hshort.
    rewrite inject_Z_plus in Hshort. change (inject_Z 1) with 1 in Hshort.
    assert (Hn : 0 <= inject_Z (Z.of_nat n)).
    { change 0 with (inject_Z 0). rewrite <- Zle_Qle. lia. }
    cbn [ClipSelector.passes ClipSelector.onePass].
    assert (Hb : Qle_bool target total = false)
      by (apply Qle_bool_false; lra).
    rewrite Hb. cbn [clip_duration Examples.oneSecondClip].
    assert (Hfit : Qle_bool 1 (target - total) = true)
      by (apply Qle_bool_iff; lra).
    rewrite Hfit. rewrite IH; [reflexivity | lra].
Qed.

(** C2, as stated, fails whatever the maximum number of passes is: one
    clip of one second has a positive total duration, and a target of one
    second more than the passes can collect ends in the error. *)
Lemma select_fails_beyond_pass_limit :
  ~ (exists maxPasses,
       forall candidates T,
         0 < ClipSelector.totalDuration candidates ->
         exists selected,
           ClipSelector.select maxPasses candidates T = Some selected
           /\ selected <> []
           /\ T <= ClipSelector.totalDuration selected).
Proof.
  intros [n Hall].
  destruct (Hall [Examples.oneSecondClip] (inject_Z (Z.of_nat n) + 1))
    as [selected [Hsel _]].
  - reflexivity.
  - unfold ClipSelector.select in Hsel.
    rewrite passes_one_second_short in Hsel; [discriminate | lra].
Qed.

(** C2, amended.  For a target T > 0 that the candidates can reach within
    the maximum number of passes (T <= maxPasses * total candidate
    duration), selection succeeds with a non-empty list in selection order:
    whole candidates [pre], taken in the given order and cyclically, then a
    last clip [c] whose duration is cut to exactly what was still missing,
    with its URL and in-point unchanged; the durations add up to exactly T.
    With at least one pass, candidates of 4, 4 and 4 seconds and a target
    of 10 give durations 4, 4 and 2. *)
Theorem select_meets_target_exactly :
  (forall (maxPasses : nat) (candidates : list VideoClip) (T : Q),
     0 < T ->
     T <= inject_Z (Z.of_nat maxPasses)
          * ClipSelector.totalDuration candidates ->
     exists pre c rest take,
       ClipSelector.select maxPasses candidates T
       = Some (pre ++ [ClipSelector.trim c take])%list
       /\ concat (repeat candidates maxPasses) = (pre ++ c :: rest)%list
       /\ take == T - ClipSelector.totalDuration pre
       /\ 0 < take /\ take <= clip_duration c
       /\ clip_url (ClipSelector.trim c take) = clip_url c
       /\ clip_startTime (ClipSelector.trim c take) = clip_startTime c
       /\ ClipSelector.totalDuration (pre ++ [ClipSelector.trim c take])
          == T)
  /\ (forall maxPasses,
        ClipSelector.select (S maxPasses) Examples.fourSecondClips 10
        = Some [ mkVideoClip "a.mp4" 4 None;
                 mkVideoClip "b.mp4" 4 (Some 2);
                 mkVideoClip "c.mp4" 2 None ]).
Proof.
  split.
  - intros maxPasses candidates T HT Hreach.
    assert (Hne : candidates <> []).
    { intros ->. unfold ClipSelector.totalDuration in Hreach.
      simpl in Hreach. lra. }
    destruct (passes_complete candidates T maxPasses 0 HT) as [selected Hsel].
    { lra. }
    destruct (passes_spec candidates T maxPasses 0 selected HT Hsel)
      as [pre [c [rest [take [Hcyc [-> [He [Hpos Hle]]]]]]]].
    exists pre, c, rest, take.
    unfold ClipSelector.select.
    destruct candidates as [|c0 cs]; [congruence|].
    rewrite Hsel. repeat split; try assumption.
    + rewrite He. ring.
    + rewrite totalDuration_app, totalDuration_cons.
      unfold ClipSelector.totalDuration at 2. simpl. rewrite He. ring.
  - intros maxPasses. destruct maxPasses; reflexivity.
Qed.

(** Scenario B through the general statement, with a single pass. *)
Lemma select_meets_target_exactly_witness :
  exists pre c rest take,
    ClipSelector.select 1 Examples.fourSecondClips 10
    = Some (pre ++ [ClipSelector.trim c take])%list
    /\ concat (repeat Examples.fourSecondClips 1) = (pre ++ c :: rest)%list
    /\ take == 10 - ClipSelector.totalDuration pre
    /\ 0 < take /\ take <= clip_duration c
    /\ clip_url (ClipSelector.trim c take) = clip_url c
    /\ clip_startTime (ClipSelector.trim c take) = clip_startTime c
    /\ ClipSelector.totalDuration (pre ++ [ClipSelector.trim c take]) == 10.
Proof.
  apply (proj1 select_meets_target_exactly 1%nat Examples.fourSecondClips 10).
  - reflexivity.
  - vm_compute. discriminate.
Defined.

(** ** The Caption Aligner *)

Section Captions.

Import CaptionAligner.

Lemma layout_texts (D : Q) (total : nat) (chunks : list string) :
  forall start, map sub_text (layout D total start chunks) = chunks.
Proof.
  induction chunks as [|c rest IH]; intros start; [reflexivity|].
  cbn [layout map sub_text]. now rewrite IH.
Qed.

Lemma layout_first (D : Q) (total : nat) (start : Q) (chunks : list string) :
  chunks <> [] ->
  hd 0 (map sub_startTime (layout D total start chunks)) = start.
Proof. destruct chunks; [congruence | reflexivity]. Qed.

Lemma layout_contiguous (D : Q) (total : nat) (chunks : list string) :
  forall start, contiguous (layout D total start chunks).
Proof.
  induction chunks as [|c rest IH]; intros start; [exact I|].
  destruct rest as [|c' rest'].
  - exact I.
  - change (layout D total start (c :: c' :: rest'))
      with (mkSubtitleSegment start
              (start + D * ofNat (String.length c) / ofNat total) c
            :: layout D total
                 (start + D * ofNat (String.length c) / ofNat total)
                 (c' :: rest')).
    specialize (IH (start + D * ofNat (String.length c) / ofNat total)).
    remember (start + D * ofNat (String.length c) / ofNat total) as stop.
    cbn [layout] in *. split; [reflexivity | exact IH].
Qed.

Lemma layout_last (D : Q) (total : nat) (chunks : list string) :
  forall start, chunks <> [] ->
  last (map sub_endTime (layout D total start chunks)) 0 = D.
Proof.
  induction chunks as [|c rest IH]; intros start Hne; [congruence|].
  destruct rest as [|c' rest']; [reflexivity|].
  change (layout D total start (c :: c' :: rest'))
    with (mkSubtitleSegment start
            (start + D * ofNat (String.length c) / ofNat total) c
          :: layout D total
               (start + D * ofNat (String.length c) / ofNat total)
               (c' :: rest')).
  specialize (IH (start + D * ofNat (String.length c) / ofNat total)).
  remember (layout D total _ (c' :: rest')) as tl eqn:Htl.
  cbn [map]. destruct tl as [|s tl'].
  - cbn [layout] in Htl. discriminate.
  - cbn [map] in *. cbn [last]. apply IH. discriminate.
Qed.

Lemma ofNat_plus (a b : nat) : ofNat (a + b) == ofNat a + ofNat b.
Proof. unfold ofNat. now rewrite Nat2Z.inj_add, inject_Z_plus. Qed.

Lemma ofNat_pos (n : nat) : (0 < n)%nat -> 0 < ofNat n.
Proof.
  intros H. unfold ofNat. change 0 with (inject_Z 0).
  rewrite <- Zlt_Qlt. lia.
Qed.

Lemma ofNat_lt (a b : nat) : (a < b)%nat -> ofNat a < ofNat b.
Proof. intros H. unfold ofNat. rewrite <- Zlt_Qlt. lia. Qed.

Lemma length_pos (c : string) : c <> "" -> (0 < String.length c)%nat.
Proof. destruct c; [congruence | simpl; lia]. Qed.

(** Every segment of the layout has a positive length on screen, as long
    as the cursor is where the shares so far put it. *)
Lemma layout_increasing (D : Q) (total : nat) (chunks : list string) :
  0 < D ->
  forall start consumed,
  start == D * ofNat consumed / ofNat total ->
  (consumed + totalLength chunks = total)%nat ->
  Forall (fun c => c <> "") chunks ->
  Forall (fun s => sub_startTime s < sub_endTime s)
    (layout D total start chunks).
Proof.
  intros HD.
  induction chunks as [|c rest IH]; intros start consumed Hstart Hsum Hne;
    [constructor|].
  apply Forall_cons_iff in Hne as [Hc Hrest].
  pose proof (length_pos c Hc) as Hlen.
  cbn [totalLength fold_right] in Hsum. fold (totalLength rest) in Hsum.
  assert (Htot : 0 < ofNat total) by (apply ofNat_pos; lia).
  assert (Hshare : 0 < D * ofNat (String.length c) / ofNat total).
  { apply Qlt_shift_div_l; [exact Htot|].
    pose proof (ofNat_pos _ Hlen). nra. }
  destruct rest as [|c' rest'].
  - cbn [layout]. constructor; [|constructor]. cbn [sub_startTime sub_endTime].
    rewrite Hstart. apply Qlt_shift_div_r; [exact Htot|].
    assert (Hlt : ofNat consumed < ofNat total).
    { apply ofNat_lt. simpl in Hsum. lia. }
    nra.
  - change (layout D total start (c :: c' :: rest'))
      with (mkSubtitleSegment start
              (start + D * ofNat (String.length c) / ofNat total) c
            :: layout D total
                 (start + D * ofNat (String.length c) / ofNat total)
                 (c' :: rest')).
    constructor.
    + cbn [sub_startTime sub_endTime]. lra.
    + apply (IH _ (consumed + String.length c)%nat).
      * rewrite Hstart, ofNat_plus. field. lra.
      * lia.
      * exact Hrest.
Qed.

End Captions.

(** C3.  For every chunk policy, every non-empty text and every duration
    D > 0 the caption segments are not empty, begin at 0, are contiguous
    (each end time is the next start time), end at exactly D, and their
    texts put together in order are the text; every segment lasts a
    positive time. *)
Theorem generateSubtitles_aligned (policy : CaptionAligner.ChunkPolicy)
  (text : string) (D : Q) :
  text <> "" ->
  0 < D ->
  let segments := CaptionAligner.generateSubtitles text D in
  segments <> []
  /\ hd 0 (map sub_startTime segments) = 0
  /\ CaptionAligner.contiguous segments
  /\ last (map sub_endTime segments) 0 = D
  /\ CaptionAligner.concatStrings (map sub_text segments) = text
  /\ Forall (fun s => sub_startTime s < sub_endTime s) segments.
Proof.
  intros Htext HD. cbv zeta. unfold CaptionAligner.generateSubtitles.
  assert (Hne : CaptionAligner.chunk text <> []).
  { intros E. pose proof (CaptionAligner.chunk_concat text) as Hc.
    rewrite E in Hc. simpl in Hc. congruence. }
  repeat split.
  - intros E. apply (f_equal (map sub_text)) in E.
    rewrite layout_texts in E. simpl in E. congruence.
  - now apply layout_first.
  - apply layout_contiguous.
  - now apply layout_last.
  - rewrite layout_texts. apply CaptionAligner.chunk_concat.
  - apply (layout_increasing _ _ _ HD 0 0%nat).
    + unfold CaptionAligner.ofNat at 1. simpl. unfold Qdiv. ring.
    + reflexivity.
    + apply Forall_forall. intros c Hc.
      now apply (CaptionAligner.chunk_nonempty text).
Qed.

Lemma generateSubtitles_aligned_witness :
  let segments :=
    @CaptionAligner.generateSubtitles CaptionAligner.sentencePolicy "Hi there. Go!" 3 in
  segments <> []
  /\ hd 0 (map sub_startTime segments) = 0
  /\ CaptionAligner.contiguous segments
  /\ last (map sub_endTime segments) 0 = 3
  /\ CaptionAligner.concatStrings (map sub_text segments) = "Hi there. Go!"
  /\ Forall (fun s => sub_startTime s < sub_endTime s) segments.
Proof.
  apply (generateSubtitles_aligned CaptionAligner.sentencePolicy "Hi there. Go!" 3).
  - discriminate.
  - reflexivity.
Defined.

(** ** The [POST] handler *)







(** Scenario A: "morning coffee routine", 15 seconds, no credential: three
    segments of 5 seconds that share the keywords of the prompt. *)
Example scenario_A :
  map (fun s => (seg_duration s, seg_keywords s))
    (Route.createFallbackScript "morning coffee routine" 15)
  = [ (15 / 3, ["morning"; "coffee"; "routine"]);
      (15 / 3, ["morning"; "coffee"; "routine"]);
      (15 / 3, ["morning"; "coffee"; "routine"]) ].
Proof. reflexivity. Qed.


(** The handler's [catch] block reads the request body a second time.  When
    that read is refused (a body can be consumed once), a failure of the
    service leaves the handler with an exception instead of a response. *)
Example POST_throws_when_second_read_fails :
  Route.runPOST Examples.networkErrorEnv
  = (JS.Thrown (JS.ErrorObj "Body is unusable"),
     [Route.ReadBody; Route.Fetch; Route.ConsoleError; Route.ReadBody]).
Proof. reflexivity. Qed.

(** *** Runs of [handleGenerate] *)

(** Every run reaches clip lookup, with the keywords of its script. *)
Lemma run_reaches_lookup (svc : VideoGenerator.Services)
  (u : VideoGenerator.UI) :
  In (VideoGenerator.CallSearchVideos
        (VideoGenerator.lookupKeywords svc (VideoGenerator.settings u))
        (seconds (duration (VideoGenerator.settings u))))
     (VideoGenerator.calls (snd (VideoGenerator.run svc u))).
Proof.
  destruct u as [st g p c v e].
  unfold VideoGenerator.lookupKeywords, VideoGenerator.scriptOf.
  run_eval. run_cases; cbn [In]; auto 10.
Qed.



(** C7.  When clip lookup returns an empty list, the run ends with the
    error "No videos found for the given prompt" on display, no longer
    generating and without a video; clip lookup is the last call it makes,
    so neither clip selection nor narration synthesis, caption alignment,
    loading of the composer or composition is attempted. *)
Theorem handleGenerate_no_videos (svc : VideoGenerator.Services)
  (u : VideoGenerator.UI) :
  let st := VideoGenerator.settings u in
  VideoGenerator.searchVideos svc (VideoGenerator.lookupKeywords svc st)
    (seconds (duration st)) = JS.Returned [] ->
  let r := snd (VideoGenerator.run svc u) in
  VideoGenerator.error (VideoGenerator.ui r)
  = "No videos found for the given prompt"
  /\ VideoGenerator.isGenerating (VideoGenerator.ui r) = false
  /\ VideoGenerator.videoUrl (VideoGenerator.ui r) = ""
  /\ VideoGenerator.currentStep (VideoGenerator.ui r) = 2%nat
  /\ last (VideoGenerator.calls r) VideoGenerator.CallConsoleError
     = VideoGenerator.CallSearchVideos
         (VideoGenerator.lookupKeywords svc st) (seconds (duration st))
  /\ existsb VideoGenerator.isLateStage (VideoGenerator.calls r) = false
  /\ (forall clips d,
        ~ In (VideoGenerator.CallSelectClips clips d)
            (VideoGenerator.calls r)).
Proof.
  destruct u as [st g p c v e]. cbv zeta.
  unfold VideoGenerator.lookupKeywords, VideoGenerator.scriptOf.
  cbn [VideoGenerator.settings]. intros Hsearch. run_eval.
  destruct (VideoGenerator.generateScript svc _ _) eqn:Hscript;
    rewrite Hsearch; run_eval; cbn [last existsb VideoGenerator.isLateStage];
    repeat split; intros clips d Hin; cbn [In] in Hin;
    intuition discriminate.
Qed.

(** Scenario C: no candidate clip, 30 seconds. *)
Lemma handleGenerate_no_videos_witness :
  let r :=
    snd (VideoGenerator.run (Examples.demoServices [] 12) Examples.coffeeUI)
  in
  VideoGenerator.error (VideoGenerator.ui r)
  = "No videos found for the given prompt"
  /\ VideoGenerator.isGenerating (VideoGenerator.ui r) = false
  /\ VideoGenerator.videoUrl (VideoGenerator.ui r) = ""
  /\ VideoGenerator.currentStep (VideoGenerator.ui r) = 2%nat
  /\ last (VideoGenerator.calls r) VideoGenerator.CallConsoleError
     = VideoGenerator.CallSearchVideos
         (VideoGenerator.lookupKeywords (Examples.demoServices [] 12)
            (VideoGenerator.settings Examples.coffeeUI))
         (seconds (duration (VideoGenerator.settings Examples.coffeeUI)))
  /\ existsb VideoGenerator.isLateStage (VideoGenerator.calls r) = false
  /\ (forall clips d,
        ~ In (VideoGenerator.CallSelectClips clips d)
            (VideoGenerator.calls r)).
Proof.
  apply (handleGenerate_no_videos (Examples.demoServices [] 12)
           Examples.coffeeUI).
  reflexivity.
Defined.

(** C8, as stated, fails: when the synthesizer reports a duration of 0,
    caption alignment is called with the requested 30 seconds. *)
Lemma captions_use_target_when_reported_zero :
  filter
    (fun c =>
       match c with
       | VideoGenerator.CallGenerateSubtitles _ _ => true
       | _ => false
       end)
    (VideoGenerator.calls
       (snd (VideoGenerator.run
               (Examples.demoServices Examples.fourSecondClips 0)
               Examples.coffeeUI)))
  = [ VideoGenerator.CallGenerateSubtitles
        (VideoGenerator.fullScriptOf
           (Examples.demoServices Examples.fourSecondClips 0)
           (VideoGenerator.settings Examples.coffeeUI))
        (JS.Finite 30) ]
  /\ VideoGenerator.generateVoiceover
       (Examples.demoServices Examples.fourSecondClips 0)
       (VideoGenerator.fullScriptOf
          (Examples.demoServices Examples.fourSecondClips 0)
          (VideoGenerator.settings Examples.coffeeUI))
       "Alex"
     = JS.Returned ("blob:audio", JS.Finite 0)
  /\ ~ 30 == 0.
Proof. repeat split. discriminate. Qed.

(** The falsy numbers are 0 and NaN. *)
Lemma truthyDouble_false (d : JS.double) :
  JS.truthyDouble d = false <->
  d = JS.NaN \/ exists q, d = JS.Finite q /\ q == 0.
Proof.
  destruct d as [q| | |]; cbn [JS.truthyDouble].
  - unfold JS.truthyNum. rewrite negb_false_iff, Qeq_bool_iff. split.
    + intros Hq. right. exists q. now split.
    + intros [H|[q' [Heq Hq]]]; [discriminate|]. now injection Heq as ->.
  - split; [now left | reflexivity].
  - split; [discriminate | intros [H|[q [H _]]]; discriminate].
  - split; [discriminate | intros [H|[q [H _]]]; discriminate].
Qed.

(** C8, amended.  In a run whose narration synthesis succeeds with a
    reported duration d (any double), caption alignment is called exactly
    once, with the full script and with d itself when d is truthy; when d
    is falsy it is called with the requested duration of the settings
    instead.  The falsy durations are 0 and NaN. *)
Theorem captions_use_reported_duration (svc : VideoGenerator.Services)
  (u : VideoGenerator.UI) (clips selected : list VideoClip)
  (audio : VideoGenerator.Blob) (d : JS.double) :
  let st := VideoGenerator.settings u in
  VideoGenerator.searchVideos svc (VideoGenerator.lookupKeywords svc st)
    (seconds (duration st)) = JS.Returned clips ->
  clips <> [] ->
  VideoGenerator.selectClipsForDuration svc clips (seconds (duration st))
  = JS.Returned selected ->
  VideoGenerator.generateVoiceover svc (VideoGenerator.fullScriptOf svc st)
    (voice st) = JS.Returned (audio, d) ->
  filter
    (fun c =>
       match c with
       | VideoGenerator.CallGenerateSubtitles _ _ => true
       | _ => false
       end)
    (VideoGenerator.calls (snd (VideoGenerator.run svc u)))
  = [ VideoGenerator.CallGenerateSubtitles
        (VideoGenerator.fullScriptOf svc st)
        (if JS.truthyDouble d then d
         else JS.Finite (seconds (duration st))) ]
  /\ (JS.truthyDouble d = false <->
      d = JS.NaN \/ exists q, d = JS.Finite q /\ q == 0).
Proof.
  destruct u as [st g p c v e]. cbv zeta.
  unfold VideoGenerator.lookupKeywords, VideoGenerator.fullScriptOf,
    VideoGenerator.scriptOf.
  cbn [VideoGenerator.settings]. intros Hsearch Hne Hselect Hvoice.
  destruct clips as [|c0 clips]; [congruence|].
  split; [|apply truthyDouble_false].
  run_eval.
  destruct (VideoGenerator.generateScript svc _ _) eqn:Hscript;
    rewrite Hsearch; run_eval; rewrite Hselect, Hvoice; run_eval;
    destruct (JS.truthyDouble d); run_cases; reflexivity.
Qed.

Lemma captions_use_reported_duration_witness :
  filter
    (fun c =>
       match c with
       | VideoGenerator.CallGenerateSubtitles _ _ => true
       | _ => false
       end)
    (VideoGenerator.calls
       (snd (VideoGenerator.run
               (Examples.demoServicesReporting Examples.fourSecondClips
                  JS.NaN)
               Examples.coffeeUI)))
  = [ VideoGenerator.CallGenerateSubtitles
        (VideoGenerator.fullScriptOf
           (Examples.demoServicesReporting Examples.fourSecondClips JS.NaN)
           (VideoGenerator.settings Examples.coffeeUI))
        (JS.Finite 30) ]
  /\ (JS.truthyDouble JS.NaN = false <->
      JS.NaN = JS.NaN \/ exists q, JS.NaN = JS.Finite q /\ q == 0).
Proof.
  apply (captions_use_reported_duration
           (Examples.demoServicesReporting Examples.fourSecondClips JS.NaN)
           Examples.coffeeUI Examples.fourSecondClips
           [ mkVideoClip "a.mp4" 4 None; mkVideoClip "b.mp4" 4 (Some 2);
             mkVideoClip "c.mp4" 4 None; mkVideoClip "a.mp4" 4 None;
             mkVideoClip "b.mp4" 4 (Some 2); mkVideoClip "c.mp4" 4 None;
             mkVideoClip "a.mp4" 4 None; mkVideoClip "b.mp4" 2 (Some 2) ]
           "blob:audio" JS.NaN).
  - reflexivity.
  - discriminate.
  - reflexivity.
  - reflexivity.
Defined.

(** A reported duration of 12.5 seconds is passed on; NaN is replaced by
    the 30 seconds of the settings. *)
Example captions_for_reported_and_NaN :
  In (VideoGenerator.CallGenerateSubtitles
        (VideoGenerator.fullScriptOf
           (Examples.demoServices Examples.fourSecondClips (25 # 2))
           (VideoGenerator.settings Examples.coffeeUI))
        (JS.Finite (25 # 2)))
     (VideoGenerator.calls
        (snd (VideoGenerator.run
                (Examples.demoServices Examples.fourSecondClips (25 # 2))
                Examples.coffeeUI)))
  /\ In (VideoGenerator.CallGenerateSubtitles
           (VideoGenerator.fullScriptOf
              (Examples.demoServicesReporting Examples.fourSecondClips JS.NaN)
              (VideoGenerator.settings Examples.coffeeUI))
           (JS.Finite 30))
        (VideoGenerator.calls
           (snd (VideoGenerator.run
                   (Examples.demoServicesReporting Examples.fourSecondClips
                      JS.NaN)
                   Examples.coffeeUI))).
Proof. split; vm_compute; auto 20. Qed.

(** C9.  The generate button is disabled exactly when a run is in
    progress or the prompt is the empty string; a click on the disabled
    button changes nothing: no state is set and no call is made.  So a run
    starts only from a state with a non-empty prompt and no run in
    progress. *)
Theorem generate_disabled_blocks_run (svc : VideoGenerator.Services)
  (r : VideoGenerator.Run) :
  (VideoGenerator.generateDisabled (VideoGenerator.ui r) = true <->
   prompt (VideoGenerator.settings (VideoGenerator.ui r)) = ""
   \/ VideoGenerator.isGenerating (VideoGenerator.ui r) = true)
  /\ (prompt (VideoGenerator.settings (VideoGenerator.ui r)) = ""
      \/ VideoGenerator.isGenerating (VideoGenerator.ui r) = true ->
      VideoGenerator.clickGenerate svc r = r)
  /\ (VideoGenerator.clickGenerate svc r <> r ->
      prompt (VideoGenerator.settings (VideoGenerator.ui r)) <> ""
      /\ VideoGenerator.isGenerating (VideoGenerator.ui r) = false).
Proof.
  assert (Hiff :
    VideoGenerator.generateDisabled (VideoGenerator.ui r) = true <->
    prompt (VideoGenerator.settings (VideoGenerator.ui r)) = ""
    \/ VideoGenerator.isGenerating (VideoGenerator.ui r) = true).
  { unfold VideoGenerator.generateDisabled, JS.truthyStr.
    rewrite orb_true_iff, negb_involutive, String.eqb_eq. tauto. }
  split; [exact Hiff|]. split.
  - intros H. apply Hiff in H. unfold VideoGenerator.clickGenerate.
    now rewrite H.
  - intros Hchanged.
    destruct (VideoGenerator.generateDisabled (VideoGenerator.ui r)) eqn:E.
    + unfold VideoGenerator.clickGenerate in Hchanged. rewrite E in Hchanged.
      congruence.
    + split.
      * intros Hp. assert (Hd : false = true) by (apply Hiff; now left).
        discriminate.
      * destruct (VideoGenerator.isGenerating (VideoGenerator.ui r)) eqn:Hg;
          [|reflexivity].
        assert (Hd : false = true) by (apply Hiff; now right).
        discriminate.
Qed.

(** * Further properties of the sources *)

(** ** The fallback script for any duration *)

Lemma Qceiling_nonpos (x : Q) : x <= 0 -> (Qceiling x <= 0)%Z.
Proof.
  intros Hx. pose proof (Qceiling_lt x) as Hlt.
  assert (H : inject_Z (Qceiling x - 1) < inject_Z 0).
  { change (inject_Z 0) with 0. lra. }
  rewrite <- Zlt_Qlt in H. lia.
Qed.

Lemma Qceiling_pos (x : Q) : 0 < x -> (0 < Qceiling x)%Z.
Proof.
  intros Hx. pose proof (Qle_ceiling x) as Hle.
  assert (H : inject_Z 0 < inject_Z (Qceiling x)).
  { change (inject_Z 0) with 0. lra. }
  now rewrite <- Zlt_Qlt in H.
Qed.

(** In exact arithmetic a duration that is not positive gives no segment,
    and a positive one gives segments of at most 5 seconds. *)
Lemma createFallbackScript_nonpositive (reqPrompt : string) (d : Q) :
  d <= 0 -> Route.createFallbackScript reqPrompt d = [].
Proof.
  intros Hd. unfold Route.createFallbackScript.
  assert (Hc : (JS.ceil (d / 5) <= 0)%Z).
  { apply Qceiling_nonpos. apply Qle_shift_div_r; lra. }
  replace (Z.to_nat (JS.ceil (d / 5))) with 0%nat by lia. reflexivity.
Qed.

Lemma createFallbackScript_positive (reqPrompt : string) (d : Q) :
  0 < d ->
  Route.createFallbackScript reqPrompt d <> []
  /\ Forall (fun s => 0 < seg_duration s /\ seg_duration s <= 5)
       (Route.createFallbackScript reqPrompt d).
Proof.
  intros Hd.
  assert (Hc : (0 < JS.ceil (d / 5))%Z).
  { apply Qceiling_pos. apply Qlt_shift_div_l; lra. }
  assert (Hq : 0 < inject_Z (JS.ceil (d / 5))).
  { change 0 with (inject_Z 0). now rewrite <- Zlt_Qlt. }
  assert (Hup : d / 5 <= inject_Z (JS.ceil (d / 5)))
    by apply Qle_ceiling.
  split.
  - intros E. pose proof (createFallbackScript_length reqPrompt d) as Hlen.
    rewrite E in Hlen. simpl in Hlen. lia.
  - unfold Route.createFallbackScript. apply Forall_forall.
    intros s Hs. apply in_map_iff in Hs as [i [<- _]]. cbn [seg_duration].
    split.
    + apply Qlt_shift_div_l; [exact Hq | lra].
    + apply Qle_shift_div_r; [exact Hq|].
      assert (H5 : d / 5 * 5 <= inject_Z (JS.ceil (d / 5)) * 5)
        by (apply Qmult_le_compat_r; [exact Hup | lra]).
      assert (Hd5 : d / 5 * 5 == d) by field.
      rewrite Hd5 in H5. lra.
Qed.

Lemma ceil_multiple_of_five (k : Z) : JS.ceil (inject_Z (5 * k) / 5) = k.
Proof.
  unfold JS.ceil.
  assert (H : inject_Z (5 * k) / 5 == inject_Z k).
  { rewrite inject_Z_mult. change (inject_Z 5) with 5. field. }
  rewrite H. apply Qceiling_Z.
Qed.

(** X1.  Beyond 15, 30 and 60: a duration that is not positive gives the
    empty script.  A whole number of seconds d from 1 to 2^31 gives
    ceil(d/5) segments, at least one, each lasting more than 0 and at most
    5 seconds.  When d is a multiple of 5 in that range there are d/5
    segments of exactly 5 seconds, and they add up to d. *)
Theorem createFallbackScript_whole_seconds (reqPrompt : string) :
  (forall d : Q, d <= 0 -> Route.createFallbackScript reqPrompt d = [])
  /\ (forall z : Z,
        (0 < z <= 2 ^ 31)%Z ->
        let script := Route.createFallbackScript reqPrompt (inject_Z z) in
        script <> []
        /\ List.length script = Z.to_nat (JS.ceil (inject_Z z / 5))
        /\ Forall (fun s => 0 < seg_duration s /\ seg_duration s <= 5)
             script)
  /\ (forall k : Z,
        (0 < k)%Z -> (5 * k <= 2 ^ 31)%Z ->
        let script :=
          Route.createFallbackScript reqPrompt (inject_Z (5 * k)) in
        List.length script = Z.to_nat k
        /\ Forall (fun s => seg_duration s == 5) script
        /\ sumQ (map seg_duration script) == inject_Z (5 * k)).
Proof.
  split; [|split].
  - intros d. apply createFallbackScript_nonpositive.
  - intros z [Hz _]. cbv zeta.
    assert (Hq : 0 < inject_Z z).
    { change 0 with (inject_Z 0). now rewrite <- Zlt_Qlt. }
    destruct (createFallbackScript_positive reqPrompt (inject_Z z) Hq)
      as [Hne Hall].
    split; [exact Hne|]. split; [apply createFallbackScript_length|].
    exact Hall.
  - intros k Hk _. cbv zeta.
    assert (Hkq : 0 < inject_Z k).
    { change 0 with (inject_Z 0). now rewrite <- Zlt_Qlt. }
    assert (Hdur : inject_Z (5 * k) / inject_Z k == 5).
    { rewrite inject_Z_mult. change (inject_Z 5) with 5. field. lra. }
    split; [|split].
    + now rewrite createFallbackScript_length, ceil_multiple_of_five.
    + unfold Route.createFallbackScript. apply Forall_forall.
      intros s Hs. apply in_map_iff in Hs as [i [<- _]]. cbn [seg_duration].
      now rewrite ceil_multiple_of_five.
    + unfold Route.createFallbackScript. rewrite map_map.
      cbn [seg_duration]. rewrite ceil_multiple_of_five.
      rewrite (sumQ_constant _ (inject_Z (5 * k) / inject_Z k))
        by reflexivity.
      rewrite length_seq, Z2Nat.id by lia. rewrite Hdur.
      rewrite inject_Z_mult. change (inject_Z 5) with 5. ring.
Qed.

(** 45 seconds: nine segments of 5 seconds. *)
Lemma createFallbackScript_whole_seconds_witness :
  let script :=
    Route.createFallbackScript "morning coffee routine" (inject_Z (5 * 9)) in
  List.length script = Z.to_nat 9
  /\ Forall (fun s => seg_duration s == 5) script
  /\ sumQ (map seg_duration script) == inject_Z (5 * 9).
Proof.
  apply (proj2 (proj2 (createFallbackScript_whole_seconds
                         "morning coffee routine")) 9%Z).
  - reflexivity.
  - vm_compute. discriminate.
Defined.

(** ** More on keyword extraction *)

Section KeywordFacts.

Import StringFacts.

Lemma lowerChar_notUpper (c : ascii) : notUpper (JS.lowerChar c) = true.
Proof. destruct c as [[] [] [] [] [] [] [] []]; reflexivity. Qed.

Lemma lowerChar_fixes_notUpper (c : ascii) :
  notUpper c = true -> JS.lowerChar c = c.
Proof.
  unfold notUpper, JS.lowerChar. intros H. apply negb_true_iff in H.
  now rewrite H.
Qed.

Lemma space_notUpper (c : ascii) : JS.isSpace c = true -> notUpper c = true.
Proof.
  destruct c as [[] [] [] [] [] [] [] []]; intros H; try reflexivity;
    vm_compute in H; discriminate H.
Qed.

Lemma toLowerCase_notUpper (s : string) :
  allChars notUpper (JS.toLowerCase s) = true.
Proof.
  induction s as [|c s IH]; [reflexivity|].
  cbn [JS.toLowerCase allChars]. now rewrite lowerChar_notUpper, IH.
Qed.

Lemma toLowerCase_fixes_notUpper (s : string) :
  allChars notUpper s = true -> JS.toLowerCase s = s.
Proof.
  induction s as [|c s IH]; [reflexivity|].
  cbn [allChars JS.toLowerCase]. intros H.
  apply andb_true_iff in H as [Hc Hs].
  now rewrite (lowerChar_fixes_notUpper c Hc), (IH Hs).
Qed.

Lemma toLowerCase_idempotent (s : string) :
  JS.toLowerCase (JS.toLowerCase s) = JS.toLowerCase s.
Proof. apply toLowerCase_fixes_notUpper, toLowerCase_notUpper. Qed.

Lemma toLowerCase_app (a b : string) :
  JS.toLowerCase (a ++ b) = JS.toLowerCase a ++ JS.toLowerCase b.
Proof. induction a as [|c a IH]; simpl; [reflexivity | now rewrite IH]. Qed.

Lemma Forall_onHead (P : string -> Prop) (c : ascii) (l : list string) :
  (forall w, P w -> P (String c w)) ->
  P (String c "") ->
  Forall P l -> Forall P (KeywordSpec.onHead (String c "") l).
Proof.
  intros Hcons Hone Hl. destruct l as [|w ws]; simpl.
  - constructor; [exact Hone | constructor].
  - apply Forall_cons_iff in Hl as [Hw Hws].
    constructor; [now apply Hcons | exact Hws].
Qed.

(** The pieces of a split inherit every property of the characters of the
    string. *)
Lemma split_ws_allChars (p : ascii -> bool) (s : string) :
  allChars p s = true ->
  Forall (fun w => allChars p w = true) (JS.split_ws s).
Proof.
  induction s as [|c s IH]; intros Hs.
  - repeat constructor.
  - cbn [allChars] in Hs. apply andb_true_iff in Hs as [Hc Hs].
    specialize (IH Hs).
    destruct (JS.isSpace c) eqn:Hsp.
    + destruct s as [|c' s'].
      * rewrite (split_ws_space_end c Hsp). repeat constructor.
      * rewrite (split_ws_space_cons c c' s' Hsp).
        destruct (JS.isSpace c'); [exact IH|].
        constructor; [reflexivity | exact IH].
    + rewrite (split_ws_cons_letter c s Hsp).
      apply Forall_onHead; [| |exact IH].
      * intros w Hw. cbn [allChars]. now rewrite Hc, Hw.
      * cbn [allChars]. now rewrite Hc.
Qed.

(** No piece of a split holds white space. *)
Lemma split_ws_notSpace (s : string) :
  Forall (fun w => allChars notSpace w = true) (JS.split_ws s).
Proof.
  induction s as [|c s IH].
  - repeat constructor.
  - destruct (JS.isSpace c) eqn:Hsp.
    + destruct s as [|c' s'].
      * rewrite (split_ws_space_end c Hsp). repeat constructor.
      * rewrite (split_ws_space_cons c c' s' Hsp).
        destruct (JS.isSpace c'); [exact IH|].
        constructor; [reflexivity | exact IH].
    + rewrite (split_ws_cons_letter c s Hsp).
      apply Forall_onHead; [| |exact IH].
      * intros w Hw. cbn [allChars]. unfold notSpace at 1.
        now rewrite Hsp, Hw.
      * cbn [allChars]. unfold notSpace. now rewrite Hsp.
Qed.

Lemma extractKeywords_in_split (reqPrompt w : string) :
  In w (Route.extractKeywords reqPrompt) ->
  In w (JS.split_ws (JS.toLowerCase reqPrompt)).
Proof.
  unfold Route.extractKeywords, JS.slice0. intros H.
  apply in_firstn in H. now apply filter_In in H.
Qed.

(** The kept words of a string, before the cut to 3. *)
Lemma filter_keep_words (s : string) :
  filter Route.keep (JS.split_ws s) = filter Route.keep (KeywordSpec.words s).
Proof.
  rewrite words_split_ws. symmetry. apply filter_filter. exact keep_nonEmpty.
Qed.

Lemma wordsFrom_trailing_space (c : ascii) (s : string) :
  JS.isSpace c = true ->
  forall cur,
  KeywordSpec.wordsFrom cur (s ++ String c "") = KeywordSpec.wordsFrom cur s.
Proof.
  intros Hc. induction s as [|x s IH]; intros cur.
  - cbn [append KeywordSpec.wordsFrom]. rewrite Hc.
    cbn. now rewrite app_nil_r.
  - cbn [append KeywordSpec.wordsFrom].
    destruct (JS.isSpace x); now rewrite IH.
Qed.

End KeywordFacts.

(** X2.  Every keyword is one of the white-space separated pieces of the
    lowercased prompt, holds no upper-case letter (lowercasing it changes
    nothing) and no white space; and the keywords do not depend on the case
    of the prompt. *)
Theorem extractKeywords_lowercase_words (reqPrompt : string) :
  Forall (fun w =>
            In w (JS.split_ws (JS.toLowerCase reqPrompt))
            /\ JS.toLowerCase w = w
            /\ StringFacts.allChars StringFacts.notSpace w = true)
    (Route.extractKeywords reqPrompt)
  /\ Route.extractKeywords (JS.toLowerCase reqPrompt)
     = Route.extractKeywords reqPrompt.
Proof.
  split.
  - apply Forall_forall. intros w Hw.
    apply extractKeywords_in_split in Hw.
    split; [exact Hw|]. split.
    + apply toLowerCase_fixes_notUpper.
      pose proof (split_ws_allChars StringFacts.notUpper _
                    (toLowerCase_notUpper reqPrompt)) as Hall.
      rewrite Forall_forall in Hall. now apply Hall.
    + pose proof (split_ws_notSpace (JS.toLowerCase reqPrompt)) as Hall.
      rewrite Forall_forall in Hall. now apply Hall.
  - unfold Route.extractKeywords. now rewrite toLowerCase_idempotent.
Qed.

(** X3.  White space in front of the prompt or after it does not change
    the keywords. *)
Theorem extractKeywords_ignores_outer_space (c : ascii) (reqPrompt : string) :
  JS.isSpace c = true ->
  Route.extractKeywords (String c reqPrompt)
  = Route.extractKeywords reqPrompt
  /\ Route.extractKeywords (reqPrompt ++ String c "")
     = Route.extractKeywords reqPrompt.
Proof.
  intros Hc.
  assert (Hlow : JS.lowerChar c = c)
    by (apply lowerChar_fixes_notUpper, space_notUpper, Hc).
  unfold Route.extractKeywords, JS.slice0. split; f_equal.
  - cbn [JS.toLowerCase]. rewrite Hlow, !filter_keep_words.
    unfold KeywordSpec.words. cbn [KeywordSpec.wordsFrom]. now rewrite Hc.
  - rewrite toLowerCase_app. cbn [JS.toLowerCase]. rewrite Hlow.
    rewrite !filter_keep_words. unfold KeywordSpec.words.
    now rewrite wordsFrom_trailing_space.
Qed.

Lemma extractKeywords_ignores_outer_space_witness :
  Route.extractKeywords (String " " "morning coffee")
  = Route.extractKeywords "morning coffee"
  /\ Route.extractKeywords ("morning coffee" ++ String " " "")
     = Route.extractKeywords "morning coffee".
Proof.
  apply (extractKeywords_ignores_outer_space " " "morning coffee").
  reflexivity.
Defined.

(** ** More on the [POST] handler *)

Ltac post_eval :=
  cbv beta iota zeta delta
    [Route.runPOST Route.POST Route.reqJson Route.emit Route.P
     Eff.tryCatch Eff.bind Eff.throw Eff.lift Eff.modify Eff.get Eff.ret
     fst snd app filter Route.isReadBody Datatypes.length].

(** Every run of the handler, by the path it takes. *)
Lemma runPOST_paths (env : Route.Env) :
  Route.runPOST env
  = match Route.env_body env 0 with
    | JS.Thrown _ =>
        (Route.catchOutcome env,
         [Route.ReadBody; Route.ConsoleError; Route.ReadBody])
    | JS.Returned (reqPrompt, reqDuration) =>
        if Route.apiKeyMissing env then
          (JS.Returned
             (Route.mkResponse 200 (Some "API key not configured")
                (Route.scriptValue
                   (Route.createFallbackScript reqPrompt reqDuration))),
           [Route.ReadBody])
        else
          match Route.serviceContent env with
          | JS.Thrown _ =>
              (Route.catchOutcome env,
               [Route.ReadBody; Route.Fetch; Route.ConsoleError;
                Route.ReadBody])
          | JS.Returned content =>
              (JS.Returned
                 (Route.mkResponse 200 None
                    (Route.segmentsFor env reqPrompt reqDuration content)),
               [Route.ReadBody; Route.Fetch])
          end
    end.
Proof.
  unfold Route.serviceContent, Route.catchOutcome, Route.segmentsFor.
  post_eval.
  destruct (Route.env_body env 0) as [[reqPrompt reqDuration]|e0].
  - destruct (Route.apiKeyMissing env); [reflexivity|].
    destruct (Route.env_fetch env) as [response|e1].
    + destruct (Route.resp_ok response); cbn [negb].
      * destruct (Route.resp_json response) as [data|e2].
        -- destruct (Route.contentOf data) as [content|e3].
           ++ destruct (Route.env_JSON_parse env content) as [parsed|e4];
                [|reflexivity].
              destruct (Route.segmentsOf parsed); reflexivity.
           ++ destruct (Route.env_body env 1) as [[p1 d1]|e5]; reflexivity.
        -- destruct (Route.env_body env 1) as [[p1 d1]|e5]; reflexivity.
      * destruct (Route.env_body env 1) as [[p1 d1]|e5]; reflexivity.
    + destruct (Route.env_body env 1) as [[p1 d1]|e5]; reflexivity.
  - destruct (Route.env_body env 1) as [[p1 d1]|e5]; reflexivity.
Qed.

(** X4.  Whatever the request, the credential and the service do: a
    response of the handler has status 200, and an exception that leaves
    the handler is the exception of the second read of the request body
    (the one in the [catch] block), after the error was logged. *)
Theorem POST_status_and_exceptions (env : Route.Env) :
  match fst (Route.runPOST env) with
  | JS.Returned response => Route.res_status response = 200%nat
  | JS.Thrown e =>
      Route.env_body env 1 = JS.Thrown e
      /\ In Route.ConsoleError (snd (Route.runPOST env))
  end.
Proof.
  rewrite runPOST_paths. unfold Route.catchOutcome.
  destruct (Route.env_body env 0) as [[reqPrompt reqDuration]|e0].
  - destruct (Route.apiKeyMissing env); [reflexivity|].
    destruct (Route.serviceContent env); [reflexivity|].
    destruct (Route.env_body env 1) as [[p1 d1]|e5]; cbn;
      [reflexivity | intuition].
  - destruct (Route.env_body env 1) as [[p1 d1]|e5]; cbn;
      [reflexivity | intuition].
Qed.

(** X5.  When the request body cannot be read, or the credential is
    there and the service fails (the fetch rejects, the status is not OK,
    the body is no JSON, or it has no choices[0].message.content), the
    handler logs the error and reads the request body again: it answers
    with the fallback script for the prompt and duration of that second
    read, without an error field, or throws what that read throws. *)
Theorem POST_catch_uses_second_read (env : Route.Env) :
  (exists e, Route.env_body env 0 = JS.Thrown e)
  \/ ((exists pd, Route.env_body env 0 = JS.Returned pd)
      /\ Route.apiKeyMissing env = false
      /\ exists e, Route.serviceContent env = JS.Thrown e) ->
  fst (Route.runPOST env)
  = match Route.env_body env 1 with
    | JS.Returned (prompt1, duration1) =>
        JS.Returned
          (Route.mkResponse 200 None
             (Route.scriptValue
                (Route.createFallbackScript prompt1 duration1)))
    | JS.Thrown e => JS.Thrown e
    end
  /\ Route.countEffect Route.isReadBody (snd (Route.runPOST env)) = 2%nat.
Proof.
  intros Hpath. rewrite runPOST_paths.
  destruct Hpath as [[e He]|[[[p d] Hbody] [Hkey [e He]]]].
  - rewrite He. split; reflexivity.
  - rewrite Hbody, Hkey, He. split; reflexivity.
Qed.

Lemma POST_catch_uses_second_read_witness :
  fst (Route.runPOST Examples.notOkEnv)
  = match Route.env_body Examples.notOkEnv 1 with
    | JS.Returned (prompt1, duration1) =>
        JS.Returned
          (Route.mkResponse 200 None
             (Route.scriptValue
                (Route.createFallbackScript prompt1 duration1)))
    | JS.Thrown e => JS.Thrown e
    end
  /\ Route.countEffect Route.isReadBody (snd (Route.runPOST Examples.notOkEnv))
     = 2%nat.
Proof.
  apply (POST_catch_uses_second_read Examples.notOkEnv).
  right. split; [eexists; reflexivity|].
  split; [reflexivity | eexists; reflexivity].
Defined.

(** X6.  The handler reads the request body first, sends at most one
    request to the service and reads the body at most twice; it sends the
    request only when the first read succeeded and a credential is
    there. *)
Theorem POST_effects_bounded (env : Route.Env) :
  let log := snd (Route.runPOST env) in
  hd_error log = Some Route.ReadBody
  /\ (Route.countEffect Route.isFetch log <= 1)%nat
  /\ (Route.countEffect Route.isReadBody log <= 2)%nat
  /\ (In Route.Fetch log ->
      Route.apiKeyMissing env = false
      /\ exists pd, Route.env_body env 0 = JS.Returned pd).
Proof.
  cbv zeta. rewrite runPOST_paths.
  destruct (Route.env_body env 0) as [[reqPrompt reqDuration]|e0].
  - destruct (Route.apiKeyMissing env) eqn:Hkey.
    + cbn. repeat split; try lia; intuition discriminate.
    + destruct (Route.serviceContent env); cbn; repeat split; try lia; eauto.
  - cbn. repeat split; try lia; intuition discriminate.
Qed.

(** X7.  With a credential and a service that answers, the handler takes
    the script from either shape of the parsed content: the content may be
    the array of segments itself, or an object whose [segments] property is
    that array; the response is the same, status 200 without an error
    field. *)
Theorem POST_accepts_both_shapes (env : Route.Env) (reqPrompt : string)
  (reqDuration : Q) (content parsed : JS.value)
  (script : list ScriptSegment) :
  Route.env_body env 0 = JS.Returned (reqPrompt, reqDuration) ->
  Route.apiKeyMissing env = false ->
  Route.serviceContent env = JS.Returned content ->
  Route.env_JSON_parse env content = JS.Returned parsed ->
  parsed = Route.scriptValue script
  \/ (exists fields,
        parsed = JS.VObj fields
        /\ JS.lookup "segments" fields = Route.scriptValue script) ->
  Route.runPOST env
  = (JS.Returned (Route.mkResponse 200 None (Route.scriptValue script)),
     [Route.ReadBody; Route.Fetch]).
Proof.
  intros Hbody Hkey Hcontent Hparse Hshape.
  rewrite runPOST_paths, Hbody, Hkey, Hcontent.
  unfold Route.segmentsFor. rewrite Hparse.
  destruct Hshape as [->|[fields [-> Hseg]]].
  - reflexivity.
  - unfold Route.segmentsOf. cbn [JS.getProp]. rewrite Hseg. reflexivity.
Qed.

Lemma POST_accepts_both_shapes_witness :
  Route.runPOST Examples.wrappedEnv
  = (JS.Returned
       (Route.mkResponse 200 None
          (Route.scriptValue Examples.wrappedScript)),
     [Route.ReadBody; Route.Fetch]).
Proof.
  apply (POST_accepts_both_shapes Examples.wrappedEnv
           "morning coffee routine" 15 (JS.VStr "{segments}")
           (JS.VObj [ ("title", JS.VStr "Coffee");
                      ("segments",
                       Route.scriptValue Examples.wrappedScript) ])
           Examples.wrappedScript); try reflexivity.
  right. eexists. split; reflexivity.
Defined.

(** ** More on [handleGenerate] and the component *)

(** How every run ends, from any state and whatever the services do. *)
Lemma handleGenerate_final (svc : VideoGenerator.Services)
  (st : VideoSettings) (r0 : VideoGenerator.Run) :
  let res := VideoGenerator.handleGenerate svc st r0 in
  let u := VideoGenerator.ui (snd res) in
  fst res = JS.Returned tt
  /\ VideoGenerator.settings u = VideoGenerator.settings (VideoGenerator.ui r0)
  /\ VideoGenerator.isGenerating u = false
  /\ ((VideoGenerator.currentStep u = 7%nat
       /\ VideoGenerator.error u = ""
       /\ VideoGenerator.progress u = "Video generated successfully!")
      \/ ((1 <= VideoGenerator.currentStep u <= 6)%nat
          /\ VideoGenerator.videoUrl u = ""
          /\ VideoGenerator.progress u = "")).
Proof.
  destruct r0 as [[st0 g p c v e] cs]. cbv zeta.
  run_eval. run_cases;
    (split; [reflexivity|]; split; [reflexivity|]; split; [reflexivity|]);
    first [ left; repeat split; reflexivity
          | right; repeat split; solve [reflexivity | lia] ].
Qed.

(** X8.  [handleGenerate] never throws: from any state and whatever the
    services do (return or throw, at any stage), the run returns, leaves
    the settings as they were and ends with [isGenerating] false. *)
Theorem handleGenerate_always_returns (svc : VideoGenerator.Services)
  (st : VideoSettings) (r0 : VideoGenerator.Run) :
  let res := VideoGenerator.handleGenerate svc st r0 in
  fst res = JS.Returned tt
  /\ VideoGenerator.isGenerating (VideoGenerator.ui (snd res)) = false
  /\ VideoGenerator.settings (VideoGenerator.ui (snd res))
     = VideoGenerator.settings (VideoGenerator.ui r0).
Proof.
  cbv zeta. destruct (handleGenerate_final svc st r0) as [Hr [Hs [Hg _]]].
  auto.
Qed.

(** X9.  When the run finds clips and every later stage returns, it ends
    at step 7 with the success message, no error and the object URL of the
    composed video; the composer was given the clips that selection
    returned, the subtitles that caption alignment returned, the audio of
    the synthesizer and the resolution of the settings, and creating the
    URL is the last call. *)
Theorem handleGenerate_success (svc : VideoGenerator.Services)
  (u : VideoGenerator.UI) (clips selected : list VideoClip)
  (audio video : VideoGenerator.Blob) (d : JS.double)
  (subtitles : list SubtitleSegment) :
  let st := VideoGenerator.settings u in
  let text := VideoGenerator.fullScriptOf svc st in
  VideoGenerator.searchVideos svc (VideoGenerator.lookupKeywords svc st)
    (seconds (duration st)) = JS.Returned clips ->
  clips <> [] ->
  VideoGenerator.selectClipsForDuration svc clips (seconds (duration st))
  = JS.Returned selected ->
  VideoGenerator.generateVoiceover svc text (voice st)
  = JS.Returned (audio, d) ->
  VideoGenerator.generateSubtitles svc text
    (if JS.truthyDouble d then d else JS.Finite (seconds (duration st)))
  = JS.Returned subtitles ->
  VideoGenerator.loadFFmpeg svc = JS.Returned tt ->
  VideoGenerator.composeVideo svc selected subtitles audio (resolution st)
  = JS.Returned video ->
  let r := snd (VideoGenerator.run svc u) in
  VideoGenerator.ui r
  = VideoGenerator.mkUI st false "Video generated successfully!" 7
      (VideoGenerator.createObjectURL svc video) ""
  /\ In (VideoGenerator.CallComposeVideo selected subtitles audio
           (resolution st))
        (VideoGenerator.calls r)
  /\ last (VideoGenerator.calls r) VideoGenerator.CallConsoleError
     = VideoGenerator.CallCreateObjectURL video.
Proof.
  destruct u as [st g p c v e]. cbv zeta.
  unfold VideoGenerator.lookupKeywords, VideoGenerator.fullScriptOf,
    VideoGenerator.scriptOf.
  cbn [VideoGenerator.settings].
  intros Hsearch Hne Hselect Hvoice Hsubs Hload Hcompose.
  destruct clips as [|c0 clips]; [congruence|].
  run_eval.
  destruct (VideoGenerator.generateScript svc _ _) eqn:Hscript;
    rewrite Hsearch; run_eval; rewrite Hselect, Hvoice; run_eval;
    rewrite Hsubs, Hload; run_eval; rewrite Hcompose; run_eval;
    cbn [In last]; repeat split; auto 12.
Qed.

Lemma handleGenerate_success_witness :
  let svc := Examples.demoServices Examples.fourSecondClips 12 in
  let st := VideoGenerator.settings Examples.coffeeUI in
  let r := snd (VideoGenerator.run svc Examples.coffeeUI) in
  VideoGenerator.ui r
  = VideoGenerator.mkUI st false "Video generated successfully!" 7
      (VideoGenerator.createObjectURL svc "blob:video") ""
  /\ In (VideoGenerator.CallComposeVideo
           [ mkVideoClip "a.mp4" 4 None; mkVideoClip "b.mp4" 4 (Some 2);
             mkVideoClip "c.mp4" 4 None; mkVideoClip "a.mp4" 4 None;
             mkVideoClip "b.mp4" 4 (Some 2); mkVideoClip "c.mp4" 4 None;
             mkVideoClip "a.mp4" 4 None; mkVideoClip "b.mp4" 2 (Some 2) ]
           (@CaptionAligner.generateSubtitles CaptionAligner.sentencePolicy
              (VideoGenerator.fullScriptOf svc st) 12)
           "blob:audio" (resolution st))
        (VideoGenerator.calls r)
  /\ last (VideoGenerator.calls r) VideoGenerator.CallConsoleError
     = VideoGenerator.CallCreateObjectURL "blob:video".
Proof.
  apply (handleGenerate_success
           (Examples.demoServices Examples.fourSecondClips 12)
           Examples.coffeeUI Examples.fourSecondClips _ "blob:audio"
           "blob:video" (JS.Finite 12) _);
    first [reflexivity | discriminate].
Defined.

(** X10.  After any run, whatever the services did: an error box and a
    video are never shown together; a video is shown only at step 7; after
    a run that did not reach step 7 neither the progress section nor a
    video is shown; and when the progress section is shown the bar is at
    100 percent.  The inputs are enabled again. *)
Theorem handleGenerate_view_after_run (svc : VideoGenerator.Services)
  (st : VideoSettings) (r0 : VideoGenerator.Run) :
  let u := VideoGenerator.ui (snd (VideoGenerator.handleGenerate svc st r0)) in
  let v := VideoGenerator.render u in
  VideoGenerator.showError v && VideoGenerator.showVideo v = false
  /\ (VideoGenerator.showVideo v = true ->
      VideoGenerator.currentStep u = 7%nat)
  /\ (VideoGenerator.currentStep u <> 7%nat ->
      VideoGenerator.showProgress v = false
      /\ VideoGenerator.showVideo v = false)
  /\ (VideoGenerator.showProgress v = true ->
      VideoGenerator.progressWidth u == 100)
  /\ VideoGenerator.inputsDisabled v = false.
Proof.
  cbv zeta.
  destruct (handleGenerate_final svc st r0)
    as [_ [_ [Hg [[Hstep [Herr Hprog]]|[Hstep [Hurl Hprog]]]]]];
    unfold VideoGenerator.render, VideoGenerator.progressWidth;
    cbn [VideoGenerator.showError VideoGenerator.showVideo
         VideoGenerator.showProgress VideoGenerator.inputsDisabled];
    rewrite Hg.
  - rewrite Herr, Hstep. split; [reflexivity|]. split; [reflexivity|].
    split; [congruence|]. split; [|reflexivity].
    intros _. reflexivity.
  - rewrite Hurl, Hprog. cbn [JS.truthyStr String.eqb negb orb].
    rewrite andb_false_r. split; [reflexivity|].
    split; [discriminate|]. split; [split; reflexivity|].
    split; [discriminate | reflexivity].
Qed.

(** X11.  The calls of a run are an initial part of the pipeline, with no
    stage left out and none repeated: script, (error log and fallback
    script when the script service threw,) clip lookup, clip selection,
    narration, captions, loading of the composer, composition, object
    URL.  So a stage is called only after every earlier stage was called,
    clip lookup is always reached, and [generateScript] is the first
    call. *)
Theorem handleGenerate_calls_in_order (svc : VideoGenerator.Services)
  (u : VideoGenerator.UI) :
  let st := VideoGenerator.settings u in
  let calls := VideoGenerator.calls (snd (VideoGenerator.run svc u)) in
  let stages := map VideoGenerator.stageOf calls in
  stages
  = firstn (List.length stages)
      (VideoGenerator.fullPipeline (VideoGenerator.scriptThrows svc st))
  /\ In 4%nat stages
  /\ VideoGenerator.inPipelineOrder stages = true
  /\ hd_error calls
     = Some (VideoGenerator.CallGenerateScript (prompt st)
               (seconds (duration st))).
Proof.
  destruct u as [st g p c v e]. cbv zeta.
  unfold VideoGenerator.scriptThrows. cbn [VideoGenerator.settings].
  run_eval. run_cases; cbn; auto 10.
Qed.

(** X12.  When everything up to composition went well and the composer
    throws, the run ends at step 6 without a video; the error shown is the
    message of what was thrown, or "Unknown error occurred" when that is
    not an [Error]; no object URL is created. *)
Theorem handleGenerate_composer_fails (svc : VideoGenerator.Services)
  (u : VideoGenerator.UI) (clips selected : list VideoClip)
  (audio : VideoGenerator.Blob) (d : JS.double)
  (subtitles : list SubtitleSegment)
  (e : JS.exn) :
  let st := VideoGenerator.settings u in
  let text := VideoGenerator.fullScriptOf svc st in
  VideoGenerator.searchVideos svc (VideoGenerator.lookupKeywords svc st)
    (seconds (duration st)) = JS.Returned clips ->
  clips <> [] ->
  VideoGenerator.selectClipsForDuration svc clips (seconds (duration st))
  = JS.Returned selected ->
  VideoGenerator.generateVoiceover svc text (voice st)
  = JS.Returned (audio, d) ->
  VideoGenerator.generateSubtitles svc text
    (if JS.truthyDouble d then d else JS.Finite (seconds (duration st)))
  = JS.Returned subtitles ->
  VideoGenerator.loadFFmpeg svc = JS.Returned tt ->
  VideoGenerator.composeVideo svc selected subtitles audio (resolution st)
  = JS.Thrown e ->
  let r := snd (VideoGenerator.run svc u) in
  VideoGenerator.ui r
  = VideoGenerator.mkUI st false "" 6 ""
      match e with
      | JS.ErrorObj message => message
      | JS.NonError => "Unknown error occurred"
      end
  /\ last (VideoGenerator.calls r) VideoGenerator.CallConsoleError
     = VideoGenerator.CallComposeVideo selected subtitles audio
         (resolution st).
Proof.
  destruct u as [st g p c v e0]. cbv zeta.
  unfold VideoGenerator.lookupKeywords, VideoGenerator.fullScriptOf,
    VideoGenerator.scriptOf.
  cbn [VideoGenerator.settings].
  intros Hsearch Hne Hselect Hvoice Hsubs Hload Hcompose.
  destruct clips as [|c0 clips]; [congruence|].
  run_eval.
  destruct (VideoGenerator.generateScript svc _ _) eqn:Hscript;
    rewrite Hsearch; run_eval; rewrite Hselect, Hvoice; run_eval;
    rewrite Hsubs, Hload; run_eval; rewrite Hcompose; run_eval;
    cbn [last]; split; reflexivity.
Qed.

Lemma handleGenerate_composer_fails_witness :
  let svc := Examples.brokenComposerServices JS.NonError in
  let r := snd (VideoGenerator.run svc Examples.coffeeUI) in
  VideoGenerator.ui r
  = VideoGenerator.mkUI (VideoGenerator.settings Examples.coffeeUI) false ""
      6 "" "Unknown error occurred"
  /\ last (VideoGenerator.calls r) VideoGenerator.CallConsoleError
     = VideoGenerator.CallComposeVideo Examples.fourSecondClips []
         "blob:audio"
         (resolution (VideoGenerator.settings Examples.coffeeUI)).
Proof.
  apply (handleGenerate_composer_fails
           (Examples.brokenComposerServices JS.NonError)
           Examples.coffeeUI Examples.fourSecondClips
           Examples.fourSecondClips "blob:audio" (JS.Finite 12) []
           JS.NonError);
    first [reflexivity | discriminate].
Defined.

(** *** The keywords handed to clip lookup *)

Lemma includes_In (arr : list string) (w : string) :
  JS.includes arr w = true <-> In w arr.
Proof.
  unfold JS.includes. rewrite existsb_exists. split.
  - intros [x [Hin Heq]]. apply String.eqb_eq in Heq. now subst.
  - intros Hin. exists w. split; [exact Hin | apply String.eqb_refl].
Qed.

Lemma includes_not_In (arr : list string) (w : string) :
  JS.includes arr w = false <-> ~ In w arr.
Proof.
  rewrite <- includes_In. destruct (JS.includes arr w); split; congruence.
Qed.

Lemma uniqueFrom_spec (arr : list string) :
  forall seen,
  NoDup (JS.uniqueFrom seen arr)
  /\ forall x, In x (JS.uniqueFrom seen arr) <-> In x arr /\ ~ In x seen.
Proof.
  induction arr as [|a arr IH]; intros seen.
  - split; [constructor|]. intros x. simpl. tauto.
  - cbn [JS.uniqueFrom]. destruct (JS.includes seen a) eqn:Hinc.
    + apply includes_In in Hinc.
      destruct (IH seen) as [Hnd Hmem]. split; [exact Hnd|].
      intros x. rewrite Hmem. simpl. split.
      * intros [Hx Hs]. auto.
      * intros [[<-|Hx] Hs]; [contradiction | auto].
    + apply includes_not_In in Hinc.
      destruct (IH (a :: seen)) as [Hnd Hmem]. split.
      * constructor; [|exact Hnd]. rewrite Hmem. simpl. tauto.
      * intros x. simpl. rewrite Hmem. simpl. split.
        -- intros [<-|[Hx Hs]]; [auto|]. split; [auto | tauto].
        -- intros [[<-|Hx] Hs]; [auto|].
           destruct (string_dec a x) as [->|Hne]; [auto|].
           right. split; [exact Hx|]. intros [Heq|Hin]; auto.
Qed.

(** X13.  Clip lookup is called with every keyword of the script exactly
    once: the list it receives has no duplicates, and a word is in it
    exactly when it is a keyword of some segment of the script the run
    works with. *)
Theorem lookupKeywords_each_once (svc : VideoGenerator.Services)
  (u : VideoGenerator.UI) :
  let st := VideoGenerator.settings u in
  let keywords := VideoGenerator.lookupKeywords svc st in
  In (VideoGenerator.CallSearchVideos keywords (seconds (duration st)))
     (VideoGenerator.calls (snd (VideoGenerator.run svc u)))
  /\ NoDup keywords
  /\ forall w,
       In w keywords <->
       exists segment,
         In segment (VideoGenerator.scriptOf svc st)
         /\ In w (seg_keywords segment).
Proof.
  cbv zeta. split; [apply run_reaches_lookup|].
  unfold VideoGenerator.lookupKeywords, JS.unique.
  destruct (uniqueFrom_spec
              (flat_map seg_keywords
                 (VideoGenerator.scriptOf svc (VideoGenerator.settings u)))
              []) as [Hnd Hmem].
  split; [exact Hnd|]. intros w. rewrite Hmem, in_flat_map. simpl. tauto.
Qed.

(** *** Voices *)

(** X15.  Loading the voices touches only the voice of the settings: the
    state after it is the state before it in every field (prompt,
    duration, resolution, isGenerating, progress, step, video URL, error)
    except the voice.  The voice becomes the name of the first available
    voice; with no voice available, or when the voices cannot be loaded, it
    stays what it was.  The list of voices becomes the available ones
    (unchanged when they cannot be loaded).  A run that follows hands
    exactly that voice to the synthesizer. *)
Theorem loadVoices_selects_first_voice (svc : VideoGenerator.Services)
  (available : JS.outcome (list VideoGenerator.SpeechSynthesisVoice))
  (u : VideoGenerator.UI)
  (voices : list VideoGenerator.SpeechSynthesisVoice) :
  let u' := fst (VideoGenerator.loadVoices available (u, voices)) in
  let st := VideoGenerator.settings u in
  let newVoice :=
    match available with
    | JS.Returned (first :: _) => VideoGenerator.voice_name first
    | _ => voice st
    end in
  u' = VideoGenerator.mkUI
         (mkVideoSettings (prompt st) (duration st) (resolution st) newVoice)
         (VideoGenerator.isGenerating u) (VideoGenerator.progress u)
         (VideoGenerator.currentStep u) (VideoGenerator.videoUrl u)
         (VideoGenerator.error u)
  /\ snd (VideoGenerator.loadVoices available (u, voices))
     = match available with
       | JS.Returned availableVoices => availableVoices
       | JS.Thrown _ => voices
       end
  /\ forall text v,
       In (VideoGenerator.CallGenerateVoiceover text v)
          (VideoGenerator.calls (snd (VideoGenerator.run svc u'))) ->
       v = newVoice.
Proof.
  cbv zeta.
  assert (Hrun : forall u1 text v,
            In (VideoGenerator.CallGenerateVoiceover text v)
               (VideoGenerator.calls (snd (VideoGenerator.run svc u1))) ->
            v = voice (VideoGenerator.settings u1)).
  { intros [st1 g p c v1 e] text v. run_eval. run_cases; cbn [In];
      intros Hin;
      repeat match goal with
             | H : _ \/ _ |- _ => destruct H as [H|H]
             | H : False |- _ => destruct H
             | H : VideoGenerator.CallGenerateVoiceover _ _
                   = VideoGenerator.CallGenerateVoiceover _ _ |- _ =>
                 injection H as _ H; now subst
             | H : _ = VideoGenerator.CallGenerateVoiceover _ _ |- _ =>
                 discriminate H
             end. }
  destruct u as [st g p c v e]. destruct st as [pr du re vo].
  destruct available as [[|first rest]|ex]; cbn;
    (split; [reflexivity|]); (split; [reflexivity|]);
    intros text v0 Hin; apply Hrun in Hin; exact Hin.
Qed.

(** *** Sessions *)

Lemma settled_after_run (svc : VideoGenerator.Services)
  (st : VideoSettings) (r0 : VideoGenerator.Run) :
  VideoGenerator.settled
    (VideoGenerator.ui (snd (VideoGenerator.handleGenerate svc st r0))).
Proof.
  destruct (handleGenerate_final svc st r0)
    as [_ [_ [Hg [[Hstep [Herr Hprog]]|[Hstep [Hurl Hprog]]]]]];
    unfold VideoGenerator.settled, VideoGenerator.render;
    cbn [VideoGenerator.showError VideoGenerator.showVideo];
    (split; [exact Hg|]);
    (split; [change (List.length VideoGenerator.steps) with 8%nat; lia|]).
  - now rewrite Herr.
  - rewrite Hurl. apply andb_false_r.
Qed.

Lemma settled_settings (f : VideoSettings -> VideoSettings)
  (u : VideoGenerator.UI) :
  VideoGenerator.settled u ->
  VideoGenerator.settled (VideoGenerator.withSettings f u).
Proof. destruct u. exact (fun H => H). Qed.

Lemma settled_step (svc : VideoGenerator.Services) (ev : VideoGenerator.event)
  (r : VideoGenerator.Run) :
  VideoGenerator.settled (VideoGenerator.ui r) ->
  VideoGenerator.settled (VideoGenerator.ui (VideoGenerator.handleEvent svc ev r)).
Proof.
  intros Hs. destruct ev; cbn [VideoGenerator.handleEvent];
    try (destruct (VideoGenerator.isGenerating (VideoGenerator.ui r));
         [exact Hs | now apply settled_settings]).
  unfold VideoGenerator.clickGenerate.
  destruct (VideoGenerator.generateDisabled (VideoGenerator.ui r));
    [exact Hs | apply settled_after_run].
Qed.

(** X16.  Whatever the user does from the initial state (typing prompts,
    choosing durations, resolutions and voices, clicking generate, in any
    order and number) and whatever the services do in the runs: between
    events no run is in progress, the step index stays within the steps
    (so the progress bar is between 0 and 100 percent), an error and a
    video are never shown together, and the generate button is disabled
    exactly when the prompt is empty. *)
Theorem session_keeps_state_settled (svc : VideoGenerator.Services)
  (events : list VideoGenerator.event) :
  let u :=
    VideoGenerator.ui
      (VideoGenerator.session svc events
         (VideoGenerator.mkRun VideoGenerator.initialUI [])) in
  VideoGenerator.settled u
  /\ 0 <= VideoGenerator.progressWidth u <= 100
  /\ (VideoGenerator.buttonDisabled (VideoGenerator.render u) = true <->
      prompt (VideoGenerator.settings u) = "").
Proof.
  cbv zeta.
  assert (Hinv : forall r,
            VideoGenerator.settled (VideoGenerator.ui r) ->
            VideoGenerator.settled
              (VideoGenerator.ui (VideoGenerator.session svc events r))).
  { unfold VideoGenerator.session. induction events as [|ev events IH];
      intros r Hr; [exact Hr|].
    cbn [fold_left]. apply IH. now apply settled_step. }
  specialize (Hinv (VideoGenerator.mkRun VideoGenerator.initialUI [])).
  assert (Hinit : VideoGenerator.settled VideoGenerator.initialUI)
    by (repeat split; cbn; lia).
  specialize (Hinv Hinit).
  set (u := VideoGenerator.ui _) in *.
  split; [exact Hinv|].
  destruct Hinv as [Hg [Hstep _]]. split.
  - unfold VideoGenerator.progressWidth.
    change (List.length VideoGenerator.steps) with 8%nat in *.
    change (inject_Z (Z.of_nat (8 - 1))) with 7.
    assert (H0 : 0 <= inject_Z (Z.of_nat (VideoGenerator.currentStep u))).
    { change 0 with (inject_Z 0). rewrite <- Zle_Qle. lia. }
    assert (H7 : inject_Z (Z.of_nat (VideoGenerator.currentStep u)) <= 7).
    { change 7 with (inject_Z 7). rewrite <- Zle_Qle. lia. }
    set (x := inject_Z (Z.of_nat (VideoGenerator.currentStep u))) in *.
    assert (Hw : x / 7 * 100 == x * (100 # 7)) by field.
    rewrite Hw. split; lra.
  - unfold VideoGenerator.render.
    cbn [VideoGenerator.buttonDisabled].
    unfold VideoGenerator.generateDisabled, JS.truthyStr.
    rewrite Hg, orb_false_l, negb_involutive. apply String.eqb_eq.
Qed.

(** X14.  When clip lookup itself throws (rather than returning an empty
    list), the run ends at step 2 with the message of what was thrown, or
    "Unknown error occurred" when that is not an [Error]; clip lookup is
    the last call, so nothing is selected, synthesized or composed. *)
Theorem handleGenerate_lookup_throws (svc : VideoGenerator.Services)
  (u : VideoGenerator.UI) (e : JS.exn) :
  let st := VideoGenerator.settings u in
  VideoGenerator.searchVideos svc (VideoGenerator.lookupKeywords svc st)
    (seconds (duration st)) = JS.Thrown e ->
  let r := snd (VideoGenerator.run svc u) in
  VideoGenerator.ui r
  = VideoGenerator.mkUI st false "" 2 ""
      match e with
      | JS.ErrorObj message => message
      | JS.NonError => "Unknown error occurred"
      end
  /\ last (VideoGenerator.calls r) VideoGenerator.CallConsoleError
     = VideoGenerator.CallSearchVideos
         (VideoGenerator.lookupKeywords svc st) (seconds (duration st)).
Proof.
  destruct u as [st g p c v e0]. cbv zeta.
  unfold VideoGenerator.lookupKeywords, VideoGenerator.scriptOf.
  cbn [VideoGenerator.settings]. intros Hsearch. run_eval.
  destruct (VideoGenerator.generateScript svc _ _) eqn:Hscript;
    rewrite Hsearch; run_eval; cbn [last]; split; reflexivity.
Qed.

Lemma handleGenerate_lookup_throws_witness :
  let svc := Examples.offlineSearchServices (JS.ErrorObj "Failed to fetch") in
  let st := VideoGenerator.settings Examples.coffeeUI in
  let r := snd (VideoGenerator.run svc Examples.coffeeUI) in
  VideoGenerator.ui r
  = VideoGenerator.mkUI st false "" 2 "" "Failed to fetch"
  /\ last (VideoGenerator.calls r) VideoGenerator.CallConsoleError
     = VideoGenerator.CallSearchVideos
         (VideoGenerator.lookupKeywords svc st) (seconds (duration st)).
Proof.
  apply (handleGenerate_lookup_throws
           (Examples.offlineSearchServices (JS.ErrorObj "Failed to fetch"))
           Examples.coffeeUI (JS.ErrorObj "Failed to fetch")).
  reflexivity.
Defined.

(** X17.  A fallback script repeats itself after five segments: for any
    prompt and duration, segment i+5, when there is one, is the same
    segment as segment i (text, duration and keywords), so a script has at
    most five different segments. *)
Theorem createFallbackScript_period_five (reqPrompt : string) (d : Q)
  (i : nat) :
  (i + 5 < List.length (Route.createFallbackScript reqPrompt d))%nat ->
  nth_error (Route.createFallbackScript reqPrompt d) (i + 5)
  = nth_error (Route.createFallbackScript reqPrompt d) i
  /\ nth_error (Route.createFallbackScript reqPrompt d) i <> None.
Proof.
  rewrite createFallbackScript_length. intros Hi.
  rewrite (createFallbackScript_nth reqPrompt d (i + 5) Hi).
  assert (Hi' : (i < Z.to_nat (JS.ceil (d / 5)))%nat) by lia.
  rewrite (createFallbackScript_nth reqPrompt d i Hi').
  split; [|discriminate].
  replace ((i + 5) mod 5)%nat with (i mod 5)%nat; [reflexivity|].
  replace (i + 5)%nat with (i + 1 * 5)%nat by lia.
  now rewrite Nat.Div0.mod_add.
Qed.

Lemma createFallbackScript_period_five_witness :
  nth_error (Route.createFallbackScript "morning coffee routine" 30) (0 + 5)
  = nth_error (Route.createFallbackScript "morning coffee routine" 30) 0
  /\ nth_error (Route.createFallbackScript "morning coffee routine" 30) 0
     <> None.
Proof.
  apply (createFallbackScript_period_five "morning coffee routine" 30 0).
  vm_compute. lia.
Defined.
